(** * HSRP validation: the parse-and-validate core of [Hssrp_Validation.py]

    A shallow embedding of [HSRPValidator.parse_show_standby_brief] and
    [HSRPValidator.validate_hsrp], together with the fragments of the Python
    runtime they rely on: [str.splitlines], [str.lower], the [re] matcher
    for the one pattern of the program, and [dict] operations.

    - Text is a sequence of code points below 256 (Rocq's [string]); on that
      range the character classes, the line boundaries and the case mapping
      below are the ones of CPython for [str].
    - Dictionaries are finite maps.  The observed states map a group to a
      state, the results map a composite key to a record of fields, and an
      expectation entry maps "Group", "ExpectedActiveState" and
      "ExpectedStandbyState" to strings: an expectation is set when its
      field is present and not empty.
    - A Python exception is an explicit [Raise].

    The second half establishes the properties of the specification of the
    repository on these definitions. *)

From Stdlib Require Import Ascii NArith.
From stdpp Require Import base option list strings gmap fin_maps.


(** ** Exceptions *)

Inductive exn : Type :=
  | KeyError (key : string)
  | IndexError.

Inductive result (A : Type) : Type :=
  | Ok (a : A)
  | Raise (e : exn).
Arguments Ok {A} a.
Arguments Raise {A} e.

(** Sequencing: an exception raised by the first computation is the
    outcome of the whole. *)
Global Instance result_fmap : FMap result := λ A B f m,
  match m with
  | Ok a => Ok (f a)
  | Raise e => Raise e
  end.
Global Instance result_ret : MRet result := λ A a, Ok a.
Global Instance result_bind : MBind result := λ A B f m,
  match m with
  | Ok a => f a
  | Raise e => Raise e
  end.

(** [for x in l: s = body s x], stopping at the first exception. *)
Fixpoint for_in {A S} (l : list A) (body : S → A → result S) (s : S) : result S :=
  match l with
  | [] => Ok s
  | x :: l' => s' ← body s x; for_in l' body s'
  end.

(** ** [str] *)

Module PyStr.

(** [str.isspace] on one character, which is also [\s] of [re] and the
    separator set of [str.split()]. *)
Definition isspace (a : ascii) : bool :=
  match a with
  | "009" | "010" | "011" | "012" | "013"
  | "028" | "029" | "030" | "031" | " "
  | "133" | "160" => true
  | _ => false
  end%char.

(** [str.isdecimal] on one character, which is [\d] of [re]. *)
Definition isdecimal (a : ascii) : bool :=
  match a with
  | "0" | "1" | "2" | "3" | "4" | "5" | "6" | "7" | "8" | "9" => true
  | _ => false
  end%char.

(** The line boundaries of [str.splitlines]. *)
Definition islinebreak (a : ascii) : bool :=
  match a with
  | "010" | "011" | "012" | "013" | "028" | "029" | "030" | "133" => true
  | _ => false
  end%char.

Definition lower_char (a : ascii) : ascii :=
  let n := N_of_ascii a in
  if ((65 <=? n) && (n <=? 90) || (192 <=? n) && (n <=? 214)
      || (216 <=? n) && (n <=? 222))%N
  then ascii_of_N (n + 32) else a.

(** [s.lower()] *)
Fixpoint lower (s : string) : string :=
  match s with
  | "" => ""
  | String a s' => String (lower_char a) (lower s')
  end.

(** Truth value of a string: non-empty. *)
Definition truthy (s : string) : bool :=
  match s with
  | "" => false
  | String _ _ => true
  end.

(** [s.splitlines()]: [cur] is the line read so far.  A carriage return
    directly followed by a line feed is one boundary; a boundary at the
    very end of the text opens no further line. *)
Fixpoint splitlines_from (cur : string) (s : string) : list string :=
  match s with
  | "" => if truthy cur then [cur] else []
  | String a s' =>
      if islinebreak a then
        cur :: match a, s' with
               | "013"%char, String "010"%char s'' => splitlines_from "" s''
               | _, _ => splitlines_from "" s'
               end
      else splitlines_from (cur +:+ String a "") s'
  end.

Definition splitlines (s : string) : list string := splitlines_from "" s.

(** [s.split()]: the maximal runs of non-whitespace characters, in order.
    The program does not call it; the specification speaks of the
    whitespace-delimited tokens of a line, and this is their definition. *)
Fixpoint split_from (cur : string) (s : string) : list string :=
  match s with
  | "" => if truthy cur then [cur] else []
  | String a s' =>
      if isspace a then
        (if truthy cur then [cur] else []) ++ split_from "" s'
      else split_from (cur +:+ String a "") s'
  end.

Definition split (s : string) : list string := split_from "" s.

(** Every character of [s] is a decimal digit. *)
Fixpoint all_decimal (s : string) : bool :=
  match s with
  | "" => true
  | String a s' => isdecimal a && all_decimal s'
  end.

End PyStr.

(** ** [re]: the fragment the pattern of the program is written in *)

Module Re.

(** Character classes [\s], [\S] and [\d]. *)
Inductive cclass : Type := cls_s | cls_S | cls_d.

Definition holds (c : cclass) (a : ascii) : bool :=
  match c with
  | cls_s => PyStr.isspace a
  | cls_S => negb (PyStr.isspace a)
  | cls_d => PyStr.isdecimal a
  end.

(** An item of a pattern: [c+] or the capturing [(c+)].  A pattern is the
    concatenation of its items. *)
Inductive item : Type :=
  | Rep (c : cclass)
  | Cap (c : cclass).

(** Greedy [c+] followed by the rest of the pattern [k]: the longest run
    is tried first, and one character is given back each time the rest
    fails.  Returns the text taken by [c+] and the result of the rest. *)
Fixpoint plus {R} (c : ascii → bool) (k : string → option R) (s : string)
  : option (string * R) :=
  match s with
  | "" => None
  | String a s' =>
      if c a then
        match plus c k s' with
        | Some (m, r) => Some (String a m, r)
        | None =>
            match k s' with
            | Some r => Some (String a "", r)
            | None => None
            end
        end
      else None
  end.

(** Matches the items at the start of [s]; returns the matched text and
    the captured groups. *)
Fixpoint match_items (p : list item) (s : string) : option (string * list string) :=
  match p with
  | [] => Some ("", [])
  | Rep c :: p' =>
      (λ '(m, (w, gs)), (m +:+ w, gs)) <$> plus (holds c) (match_items p') s
  | Cap c :: p' =>
      (λ '(m, (w, gs)), (m +:+ w, m :: gs)) <$> plus (holds c) (match_items p') s
  end.

(** [re.match(p, s)]: anchored at the start of [s], not at its end.  The
    match object lists group 0 (the whole match), group 1, group 2, ... *)
Definition rmatch (p : list item) (s : string) : option (list string) :=
  (λ '(w, gs), w :: gs) <$> match_items p s.

(** [m.group(n)] *)
Definition group (m : list string) (n : nat) : result string :=
  match m !! n with
  | Some g => Ok g
  | None => Raise IndexError
  end.

End Re.

(** ** [dict] *)

(** [d[k]] *)
Definition getitem {V} (d : gmap string V) (k : string) : result V :=
  match d !! k with
  | Some v => Ok v
  | None => Raise (KeyError k)
  end.

(** [d.get(k, dflt)] *)
Definition get {V} (d : gmap string V) (k : string) (dflt : V) : V :=
  default dflt (d !! k).

(** ** [HSRPValidator] *)

(** [r"(\S+)\s+(\S+)\s+(\d+)\s+(\S+)\s+(\S+)\s+(\S+)\s+(\S+)"] *)
Definition pattern : list Re.item :=
  [ Re.Cap Re.cls_S; Re.Rep Re.cls_s; Re.Cap Re.cls_S; Re.Rep Re.cls_s;
    Re.Cap Re.cls_d; Re.Rep Re.cls_s; Re.Cap Re.cls_S; Re.Rep Re.cls_s;
    Re.Cap Re.cls_S; Re.Rep Re.cls_s; Re.Cap Re.cls_S; Re.Rep Re.cls_s;
    Re.Cap Re.cls_S ].

(** The body of the loop of [parse_show_standby_brief]. *)
Definition parse_line (standby_data : gmap string string) (line : string)
  : result (gmap string string) :=
  match Re.rmatch pattern line with
  | Some m =>
      group ← Re.group m 2;
      state ← PyStr.lower <$> Re.group m 4;
      Ok (<[group := state]> standby_data)
  | None => Ok standby_data
  end.

Definition parse_show_standby_brief (output : string) : result (gmap string string) :=
  for_in (PyStr.splitlines output) parse_line ∅.

Definition active_verdict (actual_state device_name : string) : string :=
  if decide (actual_state = "active") then "pass"
  else "Failed : " +:+ device_name +:+ " No longer Active".

Definition standby_verdict (actual_state device_name : string) : string :=
  if decide (actual_state = "standby") then "pass"
  else "Failed : " +:+ device_name +:+ " No longer Standby".

(** The body of the loop of [validate_hsrp].  An expectation entry is a
    dictionary from field names to strings. *)
Definition validate_condition (standby_data : gmap string string) (device_name : string)
    (results : gmap string (gmap string string)) (condition : gmap string string)
  : result (gmap string (gmap string string)) :=
  group ← getitem condition "Group";
  let expected_active := PyStr.lower (get condition "ExpectedActiveState" "") in
  let expected_standby := PyStr.lower (get condition "ExpectedStandbyState" "") in
  let actual_state := get standby_data group "" in
  let results :=
    if PyStr.truthy expected_active then
      <["grp" +:+ group := {[ "Active" := active_verdict actual_state device_name ]}]> results
    else results in
  let results :=
    if PyStr.truthy expected_standby then
      <["grp" +:+ group :=
          <["Standby" := standby_verdict actual_state device_name]>
            (get results ("grp" +:+ group) ∅)]> results
    else results in
  Ok results.

Definition validate_hsrp (standby_data : gmap string string)
    (expected_conditions : list (gmap string string)) (device_name : string)
  : result (gmap string (gmap string string)) :=
  for_in expected_conditions (validate_condition standby_data device_name) ∅.

(** Expectation entries as the program writes them. *)
Definition expect_active (group value : string) : gmap string string :=
  {[ "Group" := group; "ExpectedActiveState" := value ]}.

Definition expect_standby (group value : string) : gmap string string :=
  {[ "Group" := group; "ExpectedStandbyState" := value ]}.

Definition expect_both (group active standby : string) : gmap string string :=
  {[ "Group" := group; "ExpectedActiveState" := active;
     "ExpectedStandbyState" := standby ]}.

(** ** Reading a line by its whitespace-delimited tokens *)

(** The longest prefix of [s] whose characters are all in [c], and what
    follows it. *)
Fixpoint span (c : ascii → bool) (s : string) : string * string :=
  match s with
  | "" => ("", "")
  | String a s' =>
      if c a then let '(m, r) := span c s' in (String a m, r)
      else ("", s)
  end.

(** The first token of [s] and what follows it. *)
Definition next_token (s : string) : option (string * string) :=
  let '(t, r) := span (Re.holds Re.cls_S) (span (Re.holds Re.cls_s) s).2 in
  if PyStr.truthy t then Some (t, r) else None.

(** No character is in the class of two neighbouring items. *)
Definition disjoint (c c' : ascii → bool) : Prop :=
  ∀ a, c a = true → c' a = false.

Definition class_of (it : Re.item) : ascii → bool :=
  match it with
  | Re.Rep c | Re.Cap c => Re.holds c
  end.

Fixpoint separated (p : list Re.item) : Prop :=
  match p with
  | it :: p' =>
      match p' with
      | it' :: _ => disjoint (class_of it) (class_of it')
      | [] => True
      end ∧ separated p'
  | [] => True
  end.

(** Matching without giving characters back: each item takes its longest
    run. *)
Fixpoint scan_groups (p : list Re.item) (s : string) : option (list string) :=
  match p with
  | [] => Some []
  | Re.Rep c :: p' =>
      let '(m, r) := span (Re.holds c) s in
      if PyStr.truthy m then scan_groups p' r else None
  | Re.Cap c :: p' =>
      let '(m, r) := span (Re.holds c) s in
      if PyStr.truthy m then (m ::.) <$> scan_groups p' r else None
  end.

(** [s] is empty or begins with a whitespace character. *)
Definition at_gap (s : string) : Prop :=
  match s with
  | "" => True
  | String a _ => PyStr.isspace a = true
  end.

(** The first character of [s], if any, is not whitespace. *)
Definition starts_with_token (s : string) : bool :=
  match s with
  | "" => false
  | String a _ => negb (PyStr.isspace a)
  end.

(** The seven fields of a line, read the way the specification words it:
    split on whitespace and map by position.  The three conditions are the
    ones the pattern imposes: the line begins with a token, has a seventh
    token, and its third token is a decimal number. *)
Definition fields (line : string) : option (list string) :=
  if starts_with_token line then
    match PyStr.split line with
    | t1 :: t2 :: t3 :: t4 :: t5 :: t6 :: t7 :: _ =>
        if PyStr.all_decimal t3 then Some [t1; t2; t3; t4; t5; t6; t7] else None
    | _ => None
    end
  else None.

(** The line passes the test [if match:] of the parser. *)
Definition contributes (line : string) : Prop :=
  is_Some (Re.rmatch pattern line).

(** The entry a line adds to the mapping. *)
Definition line_entry (line : string) : option (string * string) :=
  match fields line with
  | Some (_ :: group :: _ :: state :: _) => Some (group, PyStr.lower state)
  | _ => None
  end.

Definition add_entry (d : gmap string string) (line : string) : gmap string string :=
  match line_entry line with
  | Some (group, state) => <[group := state]> d
  | None => d
  end.

(** ** Reading an expectation entry *)

(** The entry carries a group. *)
Definition has_group (condition : gmap string string) : Prop :=
  is_Some (condition !! "Group").

(** The test [if expected_active:] of the validator. *)
Definition expects_active (condition : gmap string string) : bool :=
  PyStr.truthy (PyStr.lower (get condition "ExpectedActiveState" "")).

(** The test [if expected_standby:] of the validator. *)
Definition expects_standby (condition : gmap string string) : bool :=
  PyStr.truthy (PyStr.lower (get condition "ExpectedStandbyState" "")).

(** The composite key of a group. *)
Definition key (group : string) : string := "grp" +:+ group.

(** What one entry for [group] does to the results, given its two tests. *)
Definition record (standby_data : gmap string string) (device_name : string)
    (group : string) (active standby : bool)
    (results : gmap string (gmap string string)) : gmap string (gmap string string) :=
  let actual_state := get standby_data group "" in
  let results :=
    if active then
      <[key group := {[ "Active" := active_verdict actual_state device_name ]}]> results
    else results in
  if standby then
    <[key group := <["Standby" := standby_verdict actual_state device_name]>
                     (get results (key group) ∅)]> results
  else results.

Definition apply_condition (standby_data : gmap string string) (device_name : string)
    (results : gmap string (gmap string string)) (condition : gmap string string)
  : gmap string (gmap string string) :=
  match condition !! "Group" with
  | Some group =>
      record standby_data device_name group
        (expects_active condition) (expects_standby condition) results
  | None => results
  end.

(** ** Sample inputs and the predicates of the statements *)

Definition example_line : string := "Gi0/1 1 110 Active 10.0.0.1 10.0.0.2 10.0.0.254".

(** Line feed. *)
Definition LF : string := String "010"%char "".

(** A header row, two rows for group 1, and a line of text after them. *)
Definition example_output : string :=
  "Interface Grp Pri State Active Standby Virtual" +:+ LF
  +:+ "Gi0/2 1 90 Standby 10.0.0.2 10.0.0.1 10.0.0.254" +:+ LF
  +:+ example_line +:+ LF
  +:+ "2 groups shown".

(** The line, read alone, does not give a state to group [g]. *)
Definition other_group (g : string) (line : string) : Prop :=
  ∀ st, parse_line ∅ line ≠ Ok {[ g := st ]}.

(** Every field of every record is the pass marker or one of the two
    failure messages for the device. *)
Definition only_verdicts (device_name : string)
    (results : gmap string (gmap string string)) : Prop :=
  ∀ k verdict field x,
    results !! k = Some verdict → verdict !! field = Some x →
    x = "pass"
    ∨ x = "Failed : " +:+ device_name +:+ " No longer Active"
    ∨ x = "Failed : " +:+ device_name +:+ " No longer Standby".

(** The entry does not set the active expectation for group [g]. *)
Definition no_active_for (g : string) (condition : gmap string string) : Prop :=
  condition !! "Group" = Some g → expects_active condition = false.

(** ** [str.strip] *)

(** [s.lstrip()] *)
Fixpoint lstrip (s : string) : string :=
  match s with
  | "" => ""
  | String a s' => if PyStr.isspace a then lstrip s' else s
  end.

(** [s.rstrip()] *)
Fixpoint rstrip (s : string) : string :=
  match s with
  | "" => ""
  | String a s' =>
      match rstrip s' with
      | "" => if PyStr.isspace a then "" else String a ""
      | r => String a r
      end
  end.

(** [s.strip()]: whitespace is removed at both ends. *)
Definition strip (s : string) : string := rstrip (lstrip s).



(** ** [SSHClient] *)

Module SSH.

(** The attributes [__init__] stores. *)
Record client : Type := Client {
  host : string;
  username : string;
  password : string;
}.

End SSH.

(** An entry of [ssh_details]. *)
Module Device.

Record t : Type := Make {
  device_name : string;
  host : string;
  username : string;
  password : string;
  conditions : list (gmap string string);
}.

End Device.

Section transport.

(** The remote end: for a host, a user name, a password and a command, the
    decoded standard output of the command, or nothing when connecting,
    executing, reading or decoding raises. *)
Variable remote : string → string → string → string → option string.

(** [SSHClient.run_command]: the output with the whitespace at both ends
    removed; [None] when anything in the [try] block raises. *)
Definition run_command (self : SSH.client) (command : string) : option string :=
  match remote (SSH.host self) (SSH.username self) (SSH.password self) command with
  | Some out => Some (strip out)
  | None => None
  end.

(** The body of the loop of [main]. *)
Definition report_device (command : string)
    (final_results : gmap string (gmap string (gmap string string)))
    (device : Device.t) : result (gmap string (gmap string (gmap string string))) :=
  let ssh_client :=
    SSH.Client (Device.host device) (Device.username device) (Device.password device) in
  let output := run_command ssh_client command in
  match output with
  | Some out =>
      if PyStr.truthy out then
        standby_data ← parse_show_standby_brief out;
        device_results ←
          validate_hsrp standby_data (Device.conditions device) (Device.device_name device);
        Ok (<[Device.device_name device := device_results]> final_results)
      else Ok final_results
  | None => Ok final_results
  end.

(** The loop of [main] over a list of devices. *)
Definition report (ssh_details : list Device.t)
  : result (gmap string (gmap string (gmap string string))) :=
  for_in ssh_details (report_device "show standby brief") ∅.

End transport.

Definition expected_conditions_cpe1 : list (gmap string string) :=
  [ {[ "Group" := "1"; "ExpectedActiveState" := "Active" ]};
    {[ "Group" := "2"; "ExpectedStandbyState" := "Standby" ]} ].

Definition expected_conditions_cpe2 : list (gmap string string) :=
  [ {[ "Group" := "1"; "ExpectedActiveState" := "Active" ]};
    {[ "Group" := "2"; "ExpectedStandbyState" := "Standby" ]} ].

Definition ssh_details : list Device.t :=
  [ Device.Make "CPE1" "CPE1_IP_or_Hostname" "your_username" "your_password"
      expected_conditions_cpe1;
    Device.Make "CPE2" "CPE2_IP_or_Hostname" "your_username" "your_password"
      expected_conditions_cpe2 ].

(** [main], up to the printing of [final_results]. *)
Definition main (remote : string → string → string → string → option string)
  : result (gmap string (gmap string (gmap string string))) :=
  report remote ssh_details.

(** The output [main] goes on with for a device: the command succeeded and
    printed something other than whitespace. *)
Definition usable_output (remote : string → string → string → string → option string)
    (device : Device.t) : option string :=
  match remote (Device.host device) (Device.username device) (Device.password device)
          "show standby brief" with
  | Some out => if PyStr.truthy (strip out) then Some (strip out) else None
  | None => None
  end.

(** Where [splitlines] goes on after the line boundary [c] followed by [s]:
    a line feed directly after a carriage return belongs to the boundary. *)
Definition after_break (c : ascii) (s : string) : string :=
  match s with
  | String c' s' => if Ascii.eqb c "013" && Ascii.eqb c' "010" then s' else s
  | "" => s
  end.

(** The report for a device with usable output; nothing otherwise. *)
Definition device_report (remote : string → string → string → string → option string)
    (device : Device.t) : option (gmap string (gmap string string)) :=
  match usable_output remote device with
  | Some out =>
      Some (foldl (apply_condition (foldl add_entry ∅ (PyStr.splitlines out))
                     (Device.device_name device))
              ∅ (Device.conditions device))
  | None => None
  end.

Definition add_device (remote : string → string → string → string → option string)
    (final_results : gmap string (gmap string (gmap string string)))
    (device : Device.t) : gmap string (gmap string (gmap string string)) :=
  match device_report remote device with
  | Some device_results => <[Device.device_name device := device_results]> final_results
  | None => final_results
  end.

(** Every expectation entry of the device carries a group. *)
Definition well_configured (device : Device.t) : Prop :=
  Forall has_group (Device.conditions device).

(** ** Predicates of the further properties *)

(** Every record sits under the composite key of a group and holds nothing
    but the verdicts for that group. *)
Definition sound_results (standby_data : gmap string string) (device_name : string)
    (results : gmap string (gmap string string)) : Prop :=
  ∀ k verdict,
    results !! k = Some verdict →
    ∃ g,
      k = "grp" +:+ g
      ∧ ∀ field x,
          verdict !! field = Some x →
          (field = "Active" ∧ x = active_verdict (get standby_data g "") device_name)
          ∨ (field = "Standby" ∧ x = standby_verdict (get standby_data g "") device_name).

(** Two entries name the same group and set the same expectations, whatever
    the values of the expectations are. *)
Definition same_expectations (c c' : gmap string string) : Prop :=
  c !! "Group" = c' !! "Group"
  ∧ (get c "ExpectedActiveState" "" = "" ↔ get c' "ExpectedActiveState" "" = "")
  ∧ (get c "ExpectedStandbyState" "" = "" ↔ get c' "ExpectedStandbyState" "" = "").

(** ** The runtime on small inputs *)

Example splitlines_crlf :
  PyStr.splitlines ("a" +:+ String "013"%char LF +:+ LF +:+ "b" +:+ LF) = ["a"; ""; "b"].
Proof. reflexivity. Qed.

Example splitlines_empty : PyStr.splitlines "" = [] ∧ PyStr.splitlines LF = [""].
Proof. split; reflexivity. Qed.

Example split_runs : PyStr.split "  Gi0/1   1 110 " = ["Gi0/1"; "1"; "110"].
Proof. reflexivity. Qed.

Example lower_mixed : PyStr.lower "Active-[0]@Z" = "active-[0]@z".
Proof. reflexivity. Qed.

Example rmatch_example_line :
  Re.rmatch pattern example_line
  = Some [example_line; "Gi0/1"; "1"; "110"; "Active"; "10.0.0.1"; "10.0.0.2";
          "10.0.0.254"].
Proof. reflexivity. Qed.

Example parse_example_line :
  parse_show_standby_brief example_line = Ok {[ "1" := "active" ]}.
Proof. vm_compute. reflexivity. Qed.

(** ** Strings *)

Lemma app_empty_l (s : string) : "" +:+ s = s.
Proof. reflexivity. Qed.

Lemma app_cons (a : ascii) (s t : string) : String a s +:+ t = String a (s +:+ t).
Proof. reflexivity. Qed.

Lemma app_empty_r (s : string) : s +:+ "" = s.
Proof. induction s as [|a s IH]; [done|]. by rewrite app_cons, IH. Qed.

Lemma app_assoc_str (s t u : string) : (s +:+ t) +:+ u = s +:+ (t +:+ u).
Proof. induction s as [|a s IH]; [done|]. by rewrite !app_cons, IH. Qed.

Lemma app_inv_head_str (s t u : string) : s +:+ t = s +:+ u → t = u.
Proof.
  induction s as [|a s IH]; [done|].
  rewrite !app_cons. intros [= H]. auto.
Qed.

(** ** The loop *)

Global Instance Ok_inj {A} : Inj (=) (=) (@Ok A).
Proof. intros a b H. by injection H. Qed.

Lemma for_in_ok {A S} (f : S → A → S) (body : S → A → result S) (l : list A) (s : S) :
  (∀ s x, x ∈ l → body s x = Ok (f s x)) →
  for_in l body s = Ok (foldl f s l).
Proof.
  revert s. induction l as [|x l IH]; intros s Hbody; [done|].
  simpl. rewrite Hbody by left. simpl. apply IH.
  intros s' y Hy. apply Hbody. by right.
Qed.

(** ** Spans *)

(** What follows a span does not begin with a character of the class. *)
Lemma span_rest (c : ascii → bool) (s : string) :
  match (span c s).2 with
  | "" => True
  | String a _ => c a = false
  end.
Proof.
  induction s as [|a s IH]; [done|]. simpl.
  destruct (c a) eqn:Ha; [|done]. by destruct (span c s).
Qed.

Lemma span_empty (c : ascii → bool) (s : string) :
  PyStr.truthy (span c s).1 = false → span c s = ("", s).
Proof.
  destruct s as [|a s]; [done|]. simpl.
  destruct (c a); [|done]. by destruct (span c s).
Qed.

(** ** The matcher takes longest runs *)

(** When the rest of the pattern cannot start inside a run of [c], or cannot
    fail at all, giving characters back never helps: [c+] takes its longest
    run. *)
Lemma plus_span {R} (c : ascii → bool) (k : string → option R) (s : string) :
  (∀ a r, c a = true → k (String a r) = None) ∨ (∀ r, is_Some (k r)) →
  Re.plus c k s =
    let '(m, r) := span c s in
    if PyStr.truthy m then (m,.) <$> k r else None.
Proof.
  intros Hk. induction s as [|a s IH]; [done|].
  simpl. destruct (c a) eqn:Ha; [|done].
  rewrite IH. pose proof (span_empty c s) as Hempty.
  destruct (span c s) as [m r] eqn:E. simpl in Hempty.
  destruct (PyStr.truthy m) eqn:Hm; simpl.
  - destruct (k r) as [x|] eqn:Hr; [done|]. simpl.
    destruct Hk as [Hk|Hk]; [|by destruct (Hk r) as [? ?]; congruence].
    destruct s as [|a' s']; [by simplify_eq/=|].
    simpl in E. destruct (c a') eqn:Ha'; [|by simplify_eq/=].
    by rewrite (Hk a' s' Ha').
  - injection (Hempty eq_refl) as -> ->. by destruct (k s).
Qed.

Lemma match_items_stop (it : Re.item) (p : list Re.item) (a : ascii) (s : string) :
  class_of it a = false → Re.match_items (it :: p) (String a s) = None.
Proof.
  intros Ha. destruct it as [c|c]; simpl in *; by rewrite Ha.
Qed.

Lemma match_items_scan (p : list Re.item) :
  separated p → ∀ s, snd <$> Re.match_items p s = scan_groups p s.
Proof.
  induction p as [|it p IH]; [done|]. intros [Hsep Hp] s.
  assert ((∀ a r, class_of it a = true → Re.match_items p (String a r) = None)
          ∨ (∀ r, is_Some (Re.match_items p r))) as Hk.
  { destruct p as [|it' p']; [right; by eexists|left].
    intros a r Ha. apply match_items_stop. by apply Hsep. }
  specialize (IH Hp).
  destruct it as [c|c]; simpl in *; rewrite plus_span by done;
    destruct (span (Re.holds c) s) as [m r]; destruct (PyStr.truthy m); try done;
    rewrite <- (IH r); by destruct (Re.match_items p r) as [[w gs]|].
Qed.

Lemma separated_pattern : separated pattern.
Proof.
  assert (disjoint (Re.holds Re.cls_S) (Re.holds Re.cls_s)) as HSs.
  { intros a. simpl. by destruct (PyStr.isspace a). }
  assert (disjoint (Re.holds Re.cls_s) (Re.holds Re.cls_S)) as HsS.
  { intros a. simpl. by destruct (PyStr.isspace a). }
  assert (disjoint (Re.holds Re.cls_s) (Re.holds Re.cls_d)) as Hsd.
  { by intros [[] [] [] [] [] [] [] []]. }
  assert (disjoint (Re.holds Re.cls_d) (Re.holds Re.cls_s)) as Hds.
  { by intros [[] [] [] [] [] [] [] []]. }
  repeat split; assumption.
Qed.

(** ** Tokens *)

Lemma split_from_span (s cur : string) :
  PyStr.split_from cur s =
    (let t := cur +:+ (span (Re.holds Re.cls_S) s).1 in
     if PyStr.truthy t then [t] else [])
    ++ PyStr.split (span (Re.holds Re.cls_S) s).2.
Proof.
  revert cur. induction s as [|a s IH]; intros cur.
  - simpl. rewrite app_empty_r. by rewrite app_nil_r.
  - simpl. destruct (PyStr.isspace a) eqn:Ha; simpl.
    + rewrite app_empty_r. unfold PyStr.split. simpl. by rewrite Ha.
    + rewrite IH. destruct (span (Re.holds Re.cls_S) s) as [m r]. simpl.
      by rewrite app_assoc_str, app_cons, app_empty_l.
Qed.

Lemma split_skip (s : string) :
  PyStr.split (span (Re.holds Re.cls_s) s).2 = PyStr.split s.
Proof.
  induction s as [|a s IH]; [done|]. simpl.
  destruct (PyStr.isspace a) eqn:Ha; [|done].
  destruct (span (Re.holds Re.cls_s) s) as [m r]. simpl in *.
  rewrite IH. unfold PyStr.split at 2. simpl. by rewrite Ha.
Qed.

Lemma split_next_token (s : string) :
  PyStr.split s =
    match next_token s with
    | Some (t, r) => t :: PyStr.split r
    | None => []
    end.
Proof.
  rewrite <- (split_skip s). unfold next_token.
  pose proof (span_rest (Re.holds Re.cls_s) s) as Hrest.
  destruct (span (Re.holds Re.cls_s) s) as [w r1]. simpl in *.
  unfold PyStr.split at 1. rewrite split_from_span, app_empty_l.
  pose proof (span_empty (Re.holds Re.cls_S) r1) as Hempty.
  destruct (span (Re.holds Re.cls_S) r1) as [t r2] eqn:E. simpl in *.
  destruct (PyStr.truthy t); [done|].
  injection (Hempty eq_refl) as -> ->. clear Hempty.
  destruct r1 as [|a r1]; [done|].
  simpl in E. rewrite Hrest in E. simpl in E.
  by destruct (span (Re.holds Re.cls_S) r1).
Qed.

Lemma next_token_gap (s t r : string) : next_token s = Some (t, r) → at_gap r.
Proof.
  unfold next_token.
  pose proof (span_rest (Re.holds Re.cls_S) (span (Re.holds Re.cls_s) s).2) as Hrest.
  destruct (span (Re.holds Re.cls_S) _) as [t' r']. simpl in Hrest.
  destruct (PyStr.truthy t'); [|done]. intros [= -> ->].
  destruct r as [|a r]; [done|]. simpl. by apply negb_false_iff.
Qed.

(** On a line that begins with a token, that token is the first one. *)
Lemma next_token_start (s : string) :
  starts_with_token s = true →
  next_token s =
    let '(t, r) := span (Re.holds Re.cls_S) s in
    if PyStr.truthy t then Some (t, r) else None.
Proof.
  destruct s as [|a s]; [done|]. simpl. intros Ha%negb_true_iff.
  unfold next_token. simpl. rewrite Ha. simpl. by rewrite Ha.
Qed.

Lemma span_d_S (s : string) :
  PyStr.all_decimal (span (Re.holds Re.cls_S) s).1 = true →
  span (Re.holds Re.cls_d) s = span (Re.holds Re.cls_S) s.
Proof.
  induction s as [|a s IH]; [done|]. simpl.
  destruct (PyStr.isspace a) eqn:Ha; simpl.
  - intros _. by destruct a as [[] [] [] [] [] [] [] []].
  - destruct (span (Re.holds Re.cls_S) s) as [m r]. simpl in *.
    intros [Hd Hm]%andb_true_iff. by rewrite Hd, (IH Hm).
Qed.

Lemma span_d_short (s : string) :
  PyStr.all_decimal (span (Re.holds Re.cls_S) s).1 = false →
  match (span (Re.holds Re.cls_d) s).2 with
  | "" => False
  | String a _ => PyStr.isspace a = false
  end.
Proof.
  induction s as [|a s IH]; [done|]. simpl.
  destruct (PyStr.isspace a) eqn:Ha; simpl; [done|].
  destruct (span (Re.holds Re.cls_S) s) as [m r]. simpl in *.
  destruct (PyStr.isdecimal a); simpl; [|done].
  intros Hm. specialize (IH Hm).
  by destruct (span (Re.holds Re.cls_d) s).
Qed.

(** ** The pattern, field by field *)

(** At a gap, [\s+] takes the gap, unless the text ends there. *)
Lemma scan_gap (p : list Re.item) (r : string) :
  at_gap r →
  scan_groups (Re.Rep Re.cls_s :: p) r =
    match r with
    | "" => None
    | _ => scan_groups p (span (Re.holds Re.cls_s) r).2
    end.
Proof.
  intros Hgap. destruct r as [|a r]; [done|]. simpl in *. rewrite Hgap.
  by destruct (span (Re.holds Re.cls_s) r) as [w r1].
Qed.

(** [\s+(\S+)] at a gap reads the next token. *)
Lemma scan_field_S (p : list Re.item) (r : string) :
  at_gap r →
  scan_groups (Re.Rep Re.cls_s :: Re.Cap Re.cls_S :: p) r =
    match next_token r with
    | Some (t, r') => (t ::.) <$> scan_groups p r'
    | None => None
    end.
Proof.
  intros Hgap. rewrite scan_gap by done. unfold next_token.
  destruct r as [|a r]; [done|].
  destruct (span (Re.holds Re.cls_s) (String a r)) as [w r1]. simpl.
  destruct (span (Re.holds Re.cls_S) r1) as [t r2].
  by destruct (PyStr.truthy t).
Qed.

(** [\s+(\d+)] at a gap, when a further [\s+] follows, reads the next token
    and requires it to be a decimal number. *)
Lemma scan_field_d (p : list Re.item) (r : string) :
  at_gap r →
  scan_groups (Re.Rep Re.cls_s :: Re.Cap Re.cls_d :: Re.Rep Re.cls_s :: p) r =
    match next_token r with
    | Some (t, r') =>
        if PyStr.all_decimal t
        then (t ::.) <$> scan_groups (Re.Rep Re.cls_s :: p) r'
        else None
    | None => None
    end.
Proof.
  intros Hgap. rewrite scan_gap by done. unfold next_token.
  destruct r as [|a r]; [done|].
  destruct (span (Re.holds Re.cls_s) (String a r)) as [w r1]. simpl snd.
  pose proof (span_d_S r1) as Hall. pose proof (span_d_short r1) as Hshort.
  cbn [scan_groups].
  destruct (span (Re.holds Re.cls_S) r1) as [t r2] eqn:Et.
  simpl fst in *.
  destruct (PyStr.all_decimal t) eqn:Hd.
  - rewrite (Hall eq_refl). destruct (PyStr.truthy t); [|done]. by rewrite Hd.
  - specialize (Hshort eq_refl).
    destruct (span (Re.holds Re.cls_d) r1) as [d r'].
    simpl in Hshort. destruct r' as [|a' r']; [done|].
    simpl. rewrite Hshort.
    destruct (PyStr.truthy d), (PyStr.truthy t); try done; by rewrite Hd.
Qed.

(** [(\S+)] at the start of the line. *)
Lemma scan_first (p : list Re.item) (line : string) :
  scan_groups (Re.Cap Re.cls_S :: p) line =
    if starts_with_token line then
      match next_token line with
      | Some (t, r') => (t ::.) <$> scan_groups p r'
      | None => None
      end
    else None.
Proof.
  destruct (starts_with_token line) eqn:Hstart.
  - rewrite next_token_start by done. simpl.
    destruct (span (Re.holds Re.cls_S) line) as [t r].
    by destruct (PyStr.truthy t).
  - destruct line as [|a line]; [done|]. simpl in *.
    by rewrite Hstart.
Qed.

(** The groups the pattern captures are the fields of the line. *)
Lemma scan_pattern (line : string) : scan_groups pattern line = fields line.
Proof.
  unfold pattern, fields. rewrite scan_first.
  destruct (starts_with_token line); [|done].
  rewrite (split_next_token line).
  destruct (next_token line) as [[t1 r1]|] eqn:E1; [|done].
  rewrite scan_field_S, (split_next_token r1) by eauto using next_token_gap.
  destruct (next_token r1) as [[t2 r2]|] eqn:E2; [|done].
  rewrite scan_field_d, (split_next_token r2) by eauto using next_token_gap.
  destruct (next_token r2) as [[t3 r3]|] eqn:E3; [|done].
  rewrite (split_next_token r3).
  destruct (PyStr.all_decimal t3); [|by repeat case_match].
  rewrite scan_field_S by eauto using next_token_gap.
  destruct (next_token r3) as [[t4 r4]|] eqn:E4; [|done].
  rewrite scan_field_S, (split_next_token r4) by eauto using next_token_gap.
  destruct (next_token r4) as [[t5 r5]|] eqn:E5; [|done].
  rewrite scan_field_S, (split_next_token r5) by eauto using next_token_gap.
  destruct (next_token r5) as [[t6 r6]|] eqn:E6; [|done].
  rewrite scan_field_S, (split_next_token r6) by eauto using next_token_gap.
  destruct (next_token r6) as [[t7 r7]|] eqn:E7; [|done].
  done.
Qed.

Lemma match_items_pattern (line : string) :
  snd <$> Re.match_items pattern line = fields line.
Proof. rewrite match_items_scan by apply separated_pattern. apply scan_pattern. Qed.

(** ** The parser, line by line *)

Lemma fields_shape (line : string) (gs : list string) :
  fields line = Some gs →
  ∃ t1 t2 t3 t4 t5 t6 t7, gs = [t1; t2; t3; t4; t5; t6; t7].
Proof.
  unfold fields. intros H. repeat case_match; simplify_eq. by repeat eexists.
Qed.

Lemma rmatch_pattern (line : string) :
  tail <$> Re.rmatch pattern line = fields line.
Proof.
  rewrite <- match_items_pattern. unfold Re.rmatch.
  by destruct (Re.match_items pattern line) as [[w gs]|].
Qed.

Lemma contributes_fields (line : string) :
  contributes line ↔ is_Some (fields line).
Proof.
  unfold contributes. rewrite <- rmatch_pattern.
  destruct (Re.rmatch pattern line); simpl; split; intros [? ?]; by eauto.
Qed.

Lemma parse_line_eq (standby_data : gmap string string) (line : string) :
  parse_line standby_data line = Ok (add_entry standby_data line).
Proof.
  unfold parse_line, add_entry, line_entry.
  pose proof (rmatch_pattern line) as H.
  destruct (Re.rmatch pattern line) as [m|]; simpl in H; rewrite <- H; [|done].
  destruct (fields_shape line (tail m)) as (t1&t2&t3&t4&t5&t6&t7&Hm); [done|].
  destruct m as [|w gs]; [done|]. simpl in Hm. by subst gs.
Qed.

Lemma parse_show_standby_brief_eq (output : string) :
  parse_show_standby_brief output = Ok (foldl add_entry ∅ (PyStr.splitlines output)).
Proof.
  unfold parse_show_standby_brief. apply for_in_ok.
  intros d line _. apply parse_line_eq.
Qed.

Lemma foldl_add_entry_skip (lines : list string) (d : gmap string string) :
  Forall (λ l, line_entry l = None) lines → foldl add_entry d lines = d.
Proof.
  revert d. induction lines as [|l lines IH]; intros d Hl; [done|].
  inversion_clear Hl as [|? ? Hnone Hrest]. simpl.
  unfold add_entry at 2. rewrite Hnone. by apply IH.
Qed.

(** Lines that add nothing for [g] leave the state of [g] as it is. *)
Lemma foldl_add_entry_other (lines : list string) (d : gmap string string) (g : string) :
  Forall (λ l, ∀ st, line_entry l ≠ Some (g, st)) lines →
  foldl add_entry d lines !! g = d !! g.
Proof.
  revert d. induction lines as [|l lines IH]; intros d Hl; [done|].
  inversion_clear Hl as [|? ? Hother Hrest]. simpl. rewrite IH by done.
  unfold add_entry. destruct (line_entry l) as [[g' st]|]; [|done].
  apply lookup_insert_ne. intros ->. by apply (Hother st).
Qed.

(** The last line that adds an entry for [g] decides the state of [g]. *)
Lemma foldl_add_entry_last (pre post : list string) (l g st : string)
    (d : gmap string string) :
  line_entry l = Some (g, st) →
  Forall (λ l', ∀ st', line_entry l' ≠ Some (g, st')) post →
  foldl add_entry d (pre ++ l :: post) !! g = Some st.
Proof.
  intros Hl Hpost. rewrite foldl_app. simpl.
  rewrite foldl_add_entry_other by done.
  unfold add_entry at 1. rewrite Hl. apply lookup_insert_eq.
Qed.

(** A line is read alone exactly as its entry says. *)
Lemma parse_line_entry (l g st : string) :
  parse_line ∅ l = Ok {[ g := st ]} ↔ line_entry l = Some (g, st).
Proof.
  rewrite parse_line_eq. unfold add_entry.
  destruct (line_entry l) as [[g' st']|]; split.
  - intros H%(inj Ok). rewrite insert_empty in H.
    apply (f_equal (.!! g)) in H.
    rewrite lookup_singleton_eq in H.
    apply lookup_singleton_Some in H as [-> ->]. done.
  - intros [= -> ->]. by rewrite insert_empty.
  - intros H%(inj Ok). apply (f_equal (.!! g)) in H.
    by rewrite lookup_empty, lookup_singleton_eq in H.
  - done.
Qed.

(** ** The validator, entry by entry *)

Lemma key_inj (g g' : string) : key g = key g' → g = g'.
Proof. apply app_inv_head_str. Qed.

Lemma validate_condition_eq (standby_data : gmap string string) (device_name : string)
    (results : gmap string (gmap string string)) (condition : gmap string string) :
  has_group condition →
  validate_condition standby_data device_name results condition
  = Ok (apply_condition standby_data device_name results condition).
Proof.
  intros [g Hg]. unfold validate_condition, apply_condition, getitem.
  by rewrite Hg.
Qed.

Lemma validate_hsrp_eq (standby_data : gmap string string)
    (expected_conditions : list (gmap string string)) (device_name : string) :
  Forall has_group expected_conditions →
  validate_hsrp standby_data expected_conditions device_name
  = Ok (foldl (apply_condition standby_data device_name) ∅ expected_conditions).
Proof.
  intros Hall. unfold validate_hsrp. apply for_in_ok.
  intros results c Hc. apply validate_condition_eq.
  by apply (proj1 (Forall_forall _ _) Hall).
Qed.

Section record.
Context (standby_data : gmap string string) (device_name : string).
Implicit Types (results : gmap string (gmap string string)) (g k : string).

Local Abbreviation av g := (active_verdict (get standby_data g "") device_name).
Local Abbreviation sv g := (standby_verdict (get standby_data g "") device_name).
Local Abbreviation rec := (record standby_data device_name).

Lemma record_lookup_ne g k (a s : bool) results :
  k ≠ key g → rec g a s results !! k = results !! k.
Proof.
  intros Hk. unfold record.
  destruct a, s; by rewrite ?lookup_insert_ne.
Qed.

(** The record of the group after one entry.  With the active test alone
    the record is a fresh one: what it held before is gone. *)
Lemma record_lookup_key g (a s : bool) results :
  rec g a s results !! key g =
    match a, s with
    | true, true => Some (<["Standby" := sv g]> {[ "Active" := av g ]})
    | true, false => Some {[ "Active" := av g ]}
    | false, true => Some (<["Standby" := sv g]> (get results (key g) ∅))
    | false, false => results !! key g
    end.
Proof.
  unfold record, get.
  destruct a, s; by rewrite ?lookup_insert_eq.
Qed.

(** The active field of any record after one entry. *)
Lemma record_active g k (a s : bool) results :
  rec g a s results !! k ≫= (.!! "Active") =
    if bool_decide (k = key g) && a then Some (av g)
    else results !! k ≫= (.!! "Active").
Proof.
  case_bool_decide as Hk; simpl.
  - subst k. rewrite record_lookup_key. unfold get.
    destruct a, s; simpl; try done.
    destruct (results !! key g) as [v|]; simpl; by rewrite lookup_insert_ne.
  - by rewrite record_lookup_ne.
Qed.

(** The standby field of any record after one entry. *)
Lemma record_standby g k (a s : bool) results :
  rec g a s results !! k ≫= (.!! "Standby") =
    if bool_decide (k = key g) then
      if s then Some (sv g)
      else if a then None
      else results !! k ≫= (.!! "Standby")
    else results !! k ≫= (.!! "Standby").
Proof.
  case_bool_decide as Hk.
  - subst k. rewrite record_lookup_key.
    destruct a, s; simpl; by rewrite ?lookup_insert_eq.
  - by rewrite record_lookup_ne.
Qed.

Local Abbreviation apply := (apply_condition standby_data device_name).

Lemma apply_condition_active (c : gmap string string) g k results :
  c !! "Group" = Some g →
  apply results c !! k ≫= (.!! "Active") =
    if bool_decide (k = key g) && expects_active c then Some (av g)
    else results !! k ≫= (.!! "Active").
Proof. intros Hg. unfold apply_condition. rewrite Hg. apply record_active. Qed.

(** Once right, the active field of a group stays right. *)
Lemma foldl_active_stays (conds : list (gmap string string)) g results :
  Forall has_group conds →
  results !! key g ≫= (.!! "Active") = Some (av g) →
  foldl apply results conds !! key g ≫= (.!! "Active") = Some (av g).
Proof.
  revert results. induction conds as [|c conds IH]; intros results Hall Hres; [done|].
  inversion_clear Hall as [|? ? [g' Hg'] Hrest]. simpl. apply IH; [done|].
  rewrite (apply_condition_active c g') by done.
  case_bool_decide as Hk; [|done].
  apply key_inj in Hk as <-. by destruct (expects_active c).
Qed.

Lemma foldl_active_set (conds : list (gmap string string))
    (c : gmap string string) g results :
  Forall has_group conds →
  c ∈ conds → c !! "Group" = Some g → expects_active c = true →
  foldl apply results conds !! key g ≫= (.!! "Active") = Some (av g).
Proof.
  revert results. induction conds as [|x conds IH]; intros results Hall Hc Hg Ha.
  - by apply elem_of_nil in Hc.
  - inversion_clear Hall as [|? ? Hx Hrest]. simpl.
    apply elem_of_cons in Hc as [<-|Hc]; [|by apply IH].
    apply foldl_active_stays; [done|].
    rewrite (apply_condition_active c g) by done.
    by rewrite bool_decide_eq_true_2, Ha.
Qed.

(** Once right, the standby field of a group stays right as long as no
    entry for the group sets the active expectation. *)
Lemma foldl_standby_stays (conds : list (gmap string string)) g results :
  Forall has_group conds →
  Forall (no_active_for g) conds →
  results !! key g ≫= (.!! "Standby") = Some (sv g) →
  foldl apply results conds !! key g ≫= (.!! "Standby") = Some (sv g).
Proof.
  revert results.
  induction conds as [|c conds IH]; intros results Hall Hno Hres; [done|].
  inversion_clear Hall as [|? ? [g' Hg'] Hrest].
  inversion_clear Hno as [|? ? Hc Hno']. simpl. apply IH; [done..|].
  unfold apply_condition. rewrite Hg', record_standby.
  case_bool_decide as Hk; [|done].
  apply key_inj in Hk as <-. rewrite (Hc Hg').
  by destruct (expects_standby c).
Qed.

Lemma foldl_active_unset (conds : list (gmap string string)) g results :
  Forall has_group conds →
  (∀ c, c ∈ conds → c !! "Group" = Some g → expects_active c = false) →
  foldl apply results conds !! key g ≫= (.!! "Active")
  = results !! key g ≫= (.!! "Active").
Proof.
  revert results. induction conds as [|x conds IH]; intros results Hall Hno; [done|].
  inversion_clear Hall as [|? ? [g' Hg'] Hrest]. simpl.
  rewrite IH; [|done|intros c Hc; apply Hno; by right].
  rewrite (apply_condition_active x g') by done.
  case_bool_decide as Hk; [|done].
  apply key_inj in Hk as <-. rewrite (Hno x); [done|by left|done].
Qed.

End record.

Lemma active_verdict_pass (actual_state device_name : string) :
  active_verdict actual_state device_name = "pass" ↔ actual_state = "active".
Proof. unfold active_verdict. by case_decide. Qed.

Lemma standby_verdict_pass (actual_state device_name : string) :
  standby_verdict actual_state device_name = "pass" ↔ actual_state = "standby".
Proof. unfold standby_verdict. by case_decide. Qed.

(** ** The entries the program writes *)

Lemma expect_active_group (g v : string) : expect_active g v !! "Group" = Some g.
Proof. apply lookup_insert_eq. Qed.

Lemma expect_standby_group (g v : string) : expect_standby g v !! "Group" = Some g.
Proof. apply lookup_insert_eq. Qed.

Lemma expect_both_group (g a s : string) : expect_both g a s !! "Group" = Some g.
Proof. apply lookup_insert_eq. Qed.

Lemma expect_active_tests (g : string) :
  expects_active (expect_active g "Active") = true
  ∧ expects_standby (expect_active g "Active") = false.
Proof. done. Qed.

Lemma expect_standby_tests (g : string) :
  expects_active (expect_standby g "Standby") = false
  ∧ expects_standby (expect_standby g "Standby") = true.
Proof. done. Qed.

Lemma expect_both_tests (g : string) :
  expects_active (expect_both g "Active" "Standby") = true
  ∧ expects_standby (expect_both g "Active" "Standby") = true.
Proof. done. Qed.

(** ** The examples of the specification *)

Example spec_example_1 :
  (d ← parse_show_standby_brief example_line;
   validate_hsrp d [expect_active "1" "Active"] "CPE1")
  = Ok {[ "grp1" := {[ "Active" := "pass" ]} ]}.
Proof. vm_compute. reflexivity. Qed.

Example spec_example_2 :
  (d ← parse_show_standby_brief example_line;
   validate_hsrp d [expect_standby "1" "Standby"] "CPE1")
  = Ok {[ "grp1" := {[ "Standby" := "Failed : CPE1 No longer Standby" ]} ]}.
Proof. vm_compute. reflexivity. Qed.

Example spec_example_3 :
  (d ← parse_show_standby_brief example_line;
   validate_hsrp d [expect_standby "2" "Standby"] "CPE2")
  = Ok {[ "grp2" := {[ "Standby" := "Failed : CPE2 No longer Standby" ]} ]}.
Proof. vm_compute. reflexivity. Qed.

Example spec_example_4 :
  (d ← parse_show_standby_brief example_line;
   validate_hsrp d [expect_active "1" "Active"; expect_standby "1" "Standby"] "CPE1")
  = Ok {[ "grp1" := {[ "Active" := "pass";
                       "Standby" := "Failed : CPE1 No longer Standby" ]} ]}.
Proof. vm_compute. reflexivity. Qed.

(** ** Two entries for one group *)

(** C1.  Two entries for the same group, one expecting active only and one
    expecting standby only, are claimed to accumulate both fields in either
    order.  They do when the active entry comes first: the standby branch
    merges into the record it finds.  They do not when the standby entry
    comes first: the active branch assigns a fresh record, and the standby
    field written before is gone. *)
Theorem active_entry_replaces_record (standby_data : gmap string string)
    (g device_name : string) :
  validate_hsrp standby_data
    [expect_active g "Active"; expect_standby g "Standby"] device_name
  = Ok {[ "grp" +:+ g :=
            {[ "Active" := active_verdict (get standby_data g "") device_name;
               "Standby" := standby_verdict (get standby_data g "") device_name ]} ]}
  ∧
  validate_hsrp standby_data
    [expect_standby g "Standby"; expect_active g "Active"] device_name
  = Ok {[ "grp" +:+ g :=
            {[ "Active" := active_verdict (get standby_data g "") device_name ]} ]}.
Proof.
  split.
  - rewrite validate_hsrp_eq by (repeat constructor; by eexists).
    f_equal. simpl. unfold apply_condition.
    rewrite expect_active_group, expect_standby_group.
    apply map_eq. intros k. destruct (decide (k = key g)) as [->|Hk].
    + change (expects_active (expect_standby g "Standby")) with false.
      change (expects_standby (expect_standby g "Standby")) with true.
      change (expects_active (expect_active g "Active")) with true.
      change (expects_standby (expect_active g "Active")) with false.
      rewrite record_lookup_key. unfold get at 2.
      rewrite record_lookup_key. simpl.
      fold (key g). rewrite lookup_singleton_eq. reflexivity.
    + rewrite !record_lookup_ne by done. fold (key g).
      by rewrite lookup_empty, lookup_singleton_ne.
  - rewrite validate_hsrp_eq by (repeat constructor; by eexists).
    f_equal. simpl. unfold apply_condition.
    rewrite expect_active_group, expect_standby_group.
    apply map_eq. intros k. destruct (decide (k = key g)) as [->|Hk].
    + change (expects_active (expect_active g "Active")) with true.
      change (expects_standby (expect_active g "Active")) with false.
      rewrite record_lookup_key.
      fold (key g). by rewrite lookup_singleton_eq.
    + rewrite !record_lookup_ne by done. fold (key g).
      by rewrite lookup_empty, lookup_singleton_ne.
Qed.

(** C2.  The result is claimed to be the same for every order of the
    expectation list.  The two orders of one list, a standby-only and an
    active-only entry for group 1, give different results: the active
    branch replaces the record of the group instead of merging into it. *)
Theorem order_of_entries_changes_result :
  [expect_standby "1" "Standby"; expect_active "1" "Active"]
    ≡ₚ [expect_active "1" "Active"; expect_standby "1" "Standby"]
  ∧ validate_hsrp {[ "1" := "standby" ]}
      [expect_standby "1" "Standby"; expect_active "1" "Active"] "CPE1"
    = Ok {[ "grp1" := {[ "Active" := "Failed : CPE1 No longer Active" ]} ]}
  ∧ validate_hsrp {[ "1" := "standby" ]}
      [expect_active "1" "Active"; expect_standby "1" "Standby"] "CPE1"
    = Ok {[ "grp1" := {[ "Active" := "Failed : CPE1 No longer Active";
                         "Standby" := "pass" ]} ]}
  ∧ validate_hsrp {[ "1" := "standby" ]}
      [expect_standby "1" "Standby"; expect_active "1" "Active"] "CPE1"
    ≠ validate_hsrp {[ "1" := "standby" ]}
      [expect_active "1" "Active"; expect_standby "1" "Standby"] "CPE1".
Proof.
  split; [apply Permutation_swap|].
  assert (validate_hsrp {[ "1" := "standby" ]}
            [expect_standby "1" "Standby"; expect_active "1" "Active"] "CPE1"
          = Ok {[ "grp1" := {[ "Active" := "Failed : CPE1 No longer Active" ]} ]})
    as H1 by (vm_compute; reflexivity).
  assert (validate_hsrp {[ "1" := "standby" ]}
            [expect_active "1" "Active"; expect_standby "1" "Standby"] "CPE1"
          = Ok {[ "grp1" := {[ "Active" := "Failed : CPE1 No longer Active";
                               "Standby" := "pass" ]} ]})
    as H2 by (vm_compute; reflexivity).
  split; [done|]. split; [done|].
  rewrite H1, H2. intros H%(inj Ok).
  apply (f_equal (λ m, m !! "grp1" ≫= (.!! "Standby"))) in H.
  vm_compute in H. discriminate H.
Qed.

(** ** Entries for different groups *)

(** Entries for two different groups can be taken in either order. *)
Lemma record_comm (standby_data : gmap string string) (device_name : string)
    (g1 g2 : string) (a1 s1 a2 s2 : bool) (results : gmap string (gmap string string)) :
  g1 ≠ g2 →
  record standby_data device_name g2 a2 s2
    (record standby_data device_name g1 a1 s1 results)
  = record standby_data device_name g1 a1 s1
      (record standby_data device_name g2 a2 s2 results).
Proof.
  intros Hne. assert (key g1 ≠ key g2) as Hk by (intros H; by apply key_inj in H).
  apply map_eq. intros k.
  destruct (decide (k = key g1)) as [->|Hk1]; [|destruct (decide (k = key g2)) as [->|Hk2]].
  - rewrite record_lookup_ne by done. rewrite !record_lookup_key.
    unfold get. by rewrite record_lookup_ne by done.
  - rewrite (record_lookup_ne _ _ g1 (key g2)) by done. rewrite !record_lookup_key.
    unfold get. by rewrite record_lookup_ne by done.
  - by rewrite !record_lookup_ne by done.
Qed.

(** When no two entries name the same group, the order of the entries does
    not matter. *)
Lemma distinct_groups_any_order (standby_data : gmap string string)
    (device_name : string) (l l' : list (gmap string string)) :
  l ≡ₚ l' →
  Forall has_group l →
  NoDup ((.!! "Group") <$> l) →
  validate_hsrp standby_data l device_name
  = validate_hsrp standby_data l' device_name.
Proof.
  intros Hperm Hall Hdistinct.
  rewrite !validate_hsrp_eq by (done || by rewrite <- Hperm).
  f_equal. generalize (∅ : gmap string (gmap string string)) as results.
  clear Hall. induction Hperm as [|x l l' Hperm IH|x y l|l l' l'' H1 IH1 H2 IH2];
    intros results.
  - done.
  - simpl. apply IH. by apply NoDup_cons in Hdistinct as [_ ?].
  - simpl. f_equal. unfold apply_condition.
    rewrite !fmap_cons in Hdistinct.
    apply NoDup_cons in Hdistinct as [Hy _].
    apply not_elem_of_cons in Hy as [Hyx _].
    destruct (x !! "Group") as [gx|], (y !! "Group") as [gy|]; try done.
    apply record_comm. congruence.
  - rewrite IH1 by done. apply IH2. by rewrite <- H1.
Qed.

(** ** The active field *)

Lemma get_exactly (standby_data : gmap string string) (g st : string) :
  st ≠ "" → get standby_data g "" = st ↔ standby_data !! g = Some st.
Proof.
  intros Hst. unfold get.
  destruct (standby_data !! g) as [st'|]; simpl; split; congruence.
Qed.

(** C3.  Whenever an entry for a group has the active expectation set, the
    record of that group in the result has an active field; the field is
    the pass marker if and only if the observed state of the group is
    exactly "active", and for any other observed state, an absent group
    included, it is "Failed : {device_name} No longer Active".  When no
    entry for the group has the active expectation set, the record of the
    group has no active field. *)
Theorem active_result (standby_data : gmap string string)
    (expected_conditions : list (gmap string string)) (device_name : string) :
  Forall has_group expected_conditions →
  ∃ results,
    validate_hsrp standby_data expected_conditions device_name = Ok results
    ∧ (∀ condition g,
         condition ∈ expected_conditions →
         condition !! "Group" = Some g →
         expects_active condition = true →
         ∃ verdict a,
           results !! ("grp" +:+ g) = Some verdict
           ∧ verdict !! "Active" = Some a
           ∧ (a = "pass" ↔ standby_data !! g = Some "active")
           ∧ (standby_data !! g ≠ Some "active" →
              a = "Failed : " +:+ device_name +:+ " No longer Active"))
    ∧ (∀ g,
         (∀ condition,
            condition ∈ expected_conditions →
            condition !! "Group" = Some g →
            expects_active condition = false) →
         ∀ verdict,
           results !! ("grp" +:+ g) = Some verdict → verdict !! "Active" = None).
Proof.
  intros Hall. eexists. split; [by apply validate_hsrp_eq|]. split.
  - intros c g Hc Hg Ha.
    pose proof (foldl_active_set standby_data device_name
                  expected_conditions c g ∅ Hall Hc Hg Ha) as H.
    apply bind_Some in H as (verdict & Hv & Hactive).
    exists verdict, (active_verdict (get standby_data g "") device_name).
    split; [done|]. split; [done|]. split.
    + rewrite active_verdict_pass. by apply get_exactly.
    + intros Hne. unfold active_verdict. case_decide as Hst; [|done].
      by apply get_exactly in Hst.
  - intros g Hno verdict Hv.
    pose proof (foldl_active_unset standby_data device_name
                  expected_conditions g ∅ Hall Hno) as H.
    fold (key g) in Hv. rewrite Hv, lookup_empty in H. done.
Qed.

Lemma active_result_witness :
  Forall has_group [expect_active "1" "Active"; expect_standby "2" "Standby"]
  ∧ ∃ results,
      validate_hsrp {[ "1" := "active" ]}
        [expect_active "1" "Active"; expect_standby "2" "Standby"] "CPE1"
      = Ok results
      ∧ (∀ condition g,
           condition ∈ [expect_active "1" "Active"; expect_standby "2" "Standby"] →
           condition !! "Group" = Some g →
           expects_active condition = true →
           ∃ verdict a,
             results !! ("grp" +:+ g) = Some verdict
             ∧ verdict !! "Active" = Some a
             ∧ (a = "pass" ↔ ({[ "1" := "active" ]} : gmap string string) !! g = Some "active")
             ∧ (({[ "1" := "active" ]} : gmap string string) !! g ≠ Some "active" →
                a = "Failed : " +:+ "CPE1" +:+ " No longer Active"))
      ∧ (∀ g,
           (∀ condition,
              condition ∈ [expect_active "1" "Active"; expect_standby "2" "Standby"] →
              condition !! "Group" = Some g →
              expects_active condition = false) →
           ∀ verdict,
             results !! ("grp" +:+ g) = Some verdict → verdict !! "Active" = None).
Proof.
  assert (Forall has_group [expect_active "1" "Active"; expect_standby "2" "Standby"])
    as Hall by (repeat constructor; eexists; reflexivity).
  split; [exact Hall|].
  exact (active_result {[ "1" := "active" ]}
           [expect_active "1" "Active"; expect_standby "2" "Standby"] "CPE1" Hall).
Defined.

(** ** Which lines the parser reads *)

Lemma other_group_entry (g line : string) :
  other_group g line ↔ ∀ st, line_entry line ≠ Some (g, st).
Proof.
  unfold other_group. split; intros H st; specialize (H st);
    by rewrite parse_line_entry in *.
Qed.

Lemma fields_Some (line t1 t2 t3 t4 t5 t6 t7 : string) (rest : list string) :
  starts_with_token line = true →
  PyStr.split line = t1 :: t2 :: t3 :: t4 :: t5 :: t6 :: t7 :: rest →
  PyStr.all_decimal t3 = true →
  fields line = Some [t1; t2; t3; t4; t5; t6; t7].
Proof. intros Hstart Hsplit Hd. unfold fields. by rewrite Hstart, Hsplit, Hd. Qed.

Lemma fields_inv (line : string) (gs : list string) :
  fields line = Some gs →
  starts_with_token line = true
  ∧ ∃ t1 t2 t3 t4 t5 t6 t7 rest,
      PyStr.split line = t1 :: t2 :: t3 :: t4 :: t5 :: t6 :: t7 :: rest
      ∧ PyStr.all_decimal t3 = true
      ∧ gs = [t1; t2; t3; t4; t5; t6; t7].
Proof.
  unfold fields. intros H. repeat case_match; simplify_eq.
  split; [done|]. by repeat eexists.
Qed.

Lemma not_contributes_skipped (line : string) :
  ¬ contributes line → ∀ d, parse_line d line = Ok d.
Proof.
  rewrite contributes_fields. intros Hno d.
  rewrite parse_line_eq. unfold add_entry, line_entry.
  destruct (fields line); [|done]. destruct Hno. by eexists.
Qed.

Lemma contributes_adds (line : string) :
  contributes line →
  ∃ t2 t4,
    PyStr.split line !! 1 = Some t2 ∧ PyStr.split line !! 3 = Some t4
    ∧ ∀ d, parse_line d line = Ok (<[t2 := PyStr.lower t4]> d).
Proof.
  intros [gs Hgs]%contributes_fields.
  pose proof Hgs as Hinv.
  apply fields_inv in Hinv as (_ & t1&t2&t3&t4&t5&t6&t7&rest & Hsplit & _ & ->).
  exists t2, t4. rewrite Hsplit. split; [done|]. split; [done|].
  intros d. rewrite parse_line_eq. unfold add_entry, line_entry. by rewrite Hgs.
Qed.

(** C5.  A line is claimed to add an entry if and only if it has exactly
    seven whitespace-delimited tokens.  What the pattern requires is
    something else: a line adds an entry if and only if it begins with a
    token, has at least seven tokens, and its third token is a decimal
    number.  Such a line adds its second token with its fourth token in
    lower case; every other line is skipped and leaves the mapping as it
    is. *)
Theorem contributes_iff (line : string) :
  (contributes line ↔
     starts_with_token line = true
     ∧ 7 ≤ length (PyStr.split line)
     ∧ ∃ t3, PyStr.split line !! 2 = Some t3 ∧ PyStr.all_decimal t3 = true)
  ∧ (contributes line →
     ∃ t2 t4,
       PyStr.split line !! 1 = Some t2 ∧ PyStr.split line !! 3 = Some t4
       ∧ ∀ d, parse_line d line = Ok (<[t2 := PyStr.lower t4]> d))
  ∧ (¬ contributes line → ∀ d, parse_line d line = Ok d).
Proof.
  split; [|split; [apply contributes_adds|apply not_contributes_skipped]].
  rewrite contributes_fields. split.
  - intros [gs Hgs].
    apply fields_inv in Hgs as (Hstart & t1&t2&t3&t4&t5&t6&t7&rest & Hsplit & Hd & _).
    rewrite Hsplit. split; [done|]. split; [simpl; lia|]. by exists t3.
  - intros (Hstart & Hlen & t3 & Ht3 & Hd).
    destruct (PyStr.split line) as [|t1 [|t2 [|t3' [|t4 [|t5 [|t6 [|t7 rest]]]]]]] eqn:Hsplit;
      simpl in Hlen; try lia.
    simpl in Ht3. injection Ht3 as ->.
    eexists. by eapply fields_Some.
Qed.

Lemma contributes_iff_witness :
  (starts_with_token example_line = true
   ∧ 7 ≤ length (PyStr.split example_line)
   ∧ ∃ t3, PyStr.split example_line !! 2 = Some t3 ∧ PyStr.all_decimal t3 = true)
  ∧ contributes example_line.
Proof.
  assert (starts_with_token example_line = true
          ∧ 7 ≤ length (PyStr.split example_line)
          ∧ ∃ t3, PyStr.split example_line !! 2 = Some t3
                  ∧ PyStr.all_decimal t3 = true) as H.
  { split; [reflexivity|]. split; [vm_compute; lia|].
    exists "110". split; reflexivity. }
  split; [exact H|].
  exact (proj2 (proj1 (contributes_iff example_line)) H).
Defined.

(** C5, the claim as stated fails: a line of eight tokens adds an entry. *)
Lemma eight_tokens_contribute :
  ¬ (contributes "Gi0/1 1 110 Active 10.0.0.1 10.0.0.2 10.0.0.254 extra"
     ↔ length (PyStr.split "Gi0/1 1 110 Active 10.0.0.1 10.0.0.2 10.0.0.254 extra") = 7).
Proof.
  intros [H _].
  assert (contributes "Gi0/1 1 110 Active 10.0.0.1 10.0.0.2 10.0.0.254 extra") as Hc.
  { unfold contributes. vm_compute. by eexists. }
  specialize (H Hc). vm_compute in H. discriminate H.
Qed.

(** C10.  A line adds an entry only if its third whitespace-delimited token
    consists of decimal digits; a line whose third token has a character
    that is not a decimal digit is skipped, whatever its number of
    tokens. *)
Theorem priority_must_be_decimal (line : string) :
  (contributes line →
     ∃ t3, PyStr.split line !! 2 = Some t3 ∧ PyStr.all_decimal t3 = true)
  ∧ (∀ t3,
       PyStr.split line !! 2 = Some t3 →
       PyStr.all_decimal t3 = false →
       ¬ contributes line ∧ ∀ d, parse_line d line = Ok d).
Proof.
  assert (contributes line →
          ∃ t3, PyStr.split line !! 2 = Some t3 ∧ PyStr.all_decimal t3 = true) as H.
  { intros [gs Hgs]%contributes_fields.
    apply fields_inv in Hgs as (_ & t1&t2&t3&t4&t5&t6&t7&rest & Hsplit & Hd & _).
    exists t3. by rewrite Hsplit. }
  split; [exact H|].
  intros t3 Ht3 Hd.
  assert (¬ contributes line) as Hno.
  { intros Hc. destruct (H Hc) as (t3' & Ht3' & Hd'). congruence. }
  split; [exact Hno|]. by apply not_contributes_skipped.
Qed.

Lemma priority_must_be_decimal_witness :
  (PyStr.split "Gi0/1 1 P Active 10.0.0.1 10.0.0.2 10.0.0.254" !! 2 = Some "P"
   ∧ PyStr.all_decimal "P" = false
   ∧ length (PyStr.split "Gi0/1 1 P Active 10.0.0.1 10.0.0.2 10.0.0.254") = 7)
  ∧ ¬ contributes "Gi0/1 1 P Active 10.0.0.1 10.0.0.2 10.0.0.254"
  ∧ ∀ d, parse_line d "Gi0/1 1 P Active 10.0.0.1 10.0.0.2 10.0.0.254" = Ok d.
Proof.
  split; [repeat split; reflexivity|].
  apply (proj2 (priority_must_be_decimal
                  "Gi0/1 1 P Active 10.0.0.1 10.0.0.2 10.0.0.254") "P");
    reflexivity.
Defined.

(** ** Which state a group ends with *)

(** C7.  When several lines of the text are read for the same group, the
    mapping has one entry for the group, and its state is the state of the
    last of those lines: whatever lines come before, the line after which
    no line is read for the group decides. *)
Theorem last_line_wins (output : string) (pre post : list string)
    (line g st : string) :
  PyStr.splitlines output = pre ++ line :: post →
  parse_line ∅ line = Ok {[ g := st ]} →
  Forall (other_group g) post →
  ∃ d, parse_show_standby_brief output = Ok d ∧ d !! g = Some st.
Proof.
  intros Hlines Hline Hpost. eexists. split; [apply parse_show_standby_brief_eq|].
  rewrite Hlines. apply foldl_add_entry_last.
  - by apply parse_line_entry.
  - eapply Forall_impl; [exact Hpost|]. intros l. by apply other_group_entry.
Qed.

Lemma last_line_wins_witness :
  (PyStr.splitlines example_output
   = ["Interface Grp Pri State Active Standby Virtual";
      "Gi0/2 1 90 Standby 10.0.0.2 10.0.0.1 10.0.0.254"]
     ++ example_line :: ["2 groups shown"]
   ∧ parse_line ∅ example_line = Ok {[ "1" := "active" ]}
   ∧ parse_line ∅ "Gi0/2 1 90 Standby 10.0.0.2 10.0.0.1 10.0.0.254"
     = Ok {[ "1" := "standby" ]}
   ∧ Forall (other_group "1") ["2 groups shown"])
  ∧ ∃ d, parse_show_standby_brief example_output = Ok d ∧ d !! "1" = Some "active".
Proof.
  assert (Forall (other_group "1") ["2 groups shown"]) as Hpost.
  { repeat constructor. apply other_group_entry. intros st. vm_compute. discriminate. }
  split.
  - split; [reflexivity|]. split; [vm_compute; reflexivity|].
    split; [vm_compute; reflexivity|]. exact Hpost.
  - apply (last_line_wins example_output
             ["Interface Grp Pri State Active Standby Virtual";
              "Gi0/2 1 90 Standby 10.0.0.2 10.0.0.1 10.0.0.254"]
             ["2 groups shown"] example_line "1" "active").
    + reflexivity.
    + vm_compute. reflexivity.
    + exact Hpost.
Defined.

(** C4, as amended.  A line of seven whitespace-delimited tokens that begins
    with its first token and whose third token is a decimal number maps its
    second token, as it is, to its fourth token in lower case, whatever
    lines come before it and whatever lines that are not read for the same
    group come after it. *)
Theorem seven_token_line_read (output : string) (pre post : list string)
    (line t1 t2 t3 t4 t5 t6 t7 : string) :
  PyStr.splitlines output = pre ++ line :: post →
  PyStr.split line = [t1; t2; t3; t4; t5; t6; t7] →
  starts_with_token line = true →
  PyStr.all_decimal t3 = true →
  Forall (other_group t2) post →
  ∃ d, parse_show_standby_brief output = Ok d ∧ d !! t2 = Some (PyStr.lower t4).
Proof.
  intros Hlines Hsplit Hstart Hd Hpost.
  eexists. split; [apply parse_show_standby_brief_eq|].
  rewrite Hlines. apply foldl_add_entry_last.
  - unfold line_entry. by rewrite (fields_Some line t1 t2 t3 t4 t5 t6 t7 []).
  - eapply Forall_impl; [exact Hpost|]. intros l. by apply other_group_entry.
Qed.

Lemma seven_token_line_read_witness :
  (PyStr.splitlines example_output
   = ["Interface Grp Pri State Active Standby Virtual";
      "Gi0/2 1 90 Standby 10.0.0.2 10.0.0.1 10.0.0.254"]
     ++ example_line :: ["2 groups shown"]
   ∧ PyStr.split example_line
     = ["Gi0/1"; "1"; "110"; "Active"; "10.0.0.1"; "10.0.0.2"; "10.0.0.254"]
   ∧ starts_with_token example_line = true
   ∧ PyStr.all_decimal "110" = true
   ∧ Forall (other_group "1") ["2 groups shown"])
  ∧ ∃ d, parse_show_standby_brief example_output = Ok d
         ∧ d !! "1" = Some (PyStr.lower "Active").
Proof.
  assert (Forall (other_group "1") ["2 groups shown"]) as Hpost.
  { repeat constructor. apply other_group_entry. intros st. vm_compute. discriminate. }
  split.
  - repeat split; try reflexivity. exact Hpost.
  - apply (seven_token_line_read example_output
             ["Interface Grp Pri State Active Standby Virtual";
              "Gi0/2 1 90 Standby 10.0.0.2 10.0.0.1 10.0.0.254"]
             ["2 groups shown"] example_line
             "Gi0/1" "1" "110" "Active" "10.0.0.1" "10.0.0.2" "10.0.0.254");
      try reflexivity. exact Hpost.
Defined.

(** C4, the claim as stated fails: a line of seven tokens whose third token
    is not a decimal number is not read. *)
Lemma seven_tokens_not_read :
  PyStr.split "Gi0/1 1 P Active 10.0.0.1 10.0.0.2 10.0.0.254"
  = ["Gi0/1"; "1"; "P"; "Active"; "10.0.0.1"; "10.0.0.2"; "10.0.0.254"]
  ∧ parse_show_standby_brief "Gi0/1 1 P Active 10.0.0.1 10.0.0.2 10.0.0.254" = Ok ∅
  ∧ ¬ ∃ d, parse_show_standby_brief "Gi0/1 1 P Active 10.0.0.1 10.0.0.2 10.0.0.254"
           = Ok d
           ∧ d !! "1" = Some (PyStr.lower "Active").
Proof.
  assert (parse_show_standby_brief "Gi0/1 1 P Active 10.0.0.1 10.0.0.2 10.0.0.254"
          = Ok ∅) as H by (vm_compute; reflexivity).
  split; [reflexivity|]. split; [exact H|].
  intros (d & Hd & Hlookup). rewrite H in Hd. apply (inj Ok) in Hd as <-.
  by rewrite lookup_empty in Hlookup.
Qed.

(** ** An entry and the group it names *)

(** C6.  An entry whose group the device did not report raises nothing: the
    observed state is taken to be the empty string, and each expectation
    the entry sets gets its failure message in the record of the group.
    The entry may stand anywhere in the list.  For the standby field, no
    later entry for the same group sets the active expectation: such an
    entry would replace the record. *)
Theorem absent_group_fails (standby_data : gmap string string)
    (pre post : list (gmap string string)) (condition : gmap string string)
    (g device_name : string) :
  Forall has_group pre →
  condition !! "Group" = Some g →
  Forall has_group post →
  standby_data !! g = None →
  ∃ results,
    validate_hsrp standby_data (pre ++ condition :: post) device_name = Ok results
    ∧ (expects_active condition = true →
       ∃ verdict,
         results !! ("grp" +:+ g) = Some verdict
         ∧ verdict !! "Active"
           = Some ("Failed : " +:+ device_name +:+ " No longer Active"))
    ∧ (expects_standby condition = true →
       Forall (no_active_for g) post →
       ∃ verdict,
         results !! ("grp" +:+ g) = Some verdict
         ∧ verdict !! "Standby"
           = Some ("Failed : " +:+ device_name +:+ " No longer Standby")).
Proof.
  intros Hpre Hg Hpost Habsent.
  assert (Forall has_group (pre ++ condition :: post)) as Hall.
  { apply Forall_app. split; [done|]. constructor; [by exists g|done]. }
  eexists. split; [by apply validate_hsrp_eq|].
  assert (get standby_data g "" = "") as Hstate by (unfold get; by rewrite Habsent).
  split.
  - intros Hset. apply bind_Some. fold (key g).
    rewrite (foldl_active_set standby_data device_name _ condition g); [|done| |done..].
    + by rewrite Hstate.
    + apply elem_of_app. right. by left.
  - intros Hset Hno. apply bind_Some. fold (key g).
    rewrite foldl_app. simpl. rewrite foldl_standby_stays; [|done..|].
    + by rewrite Hstate.
    + unfold apply_condition. rewrite Hg, record_standby.
      by rewrite bool_decide_eq_true_2, Hset.
Qed.

Lemma absent_group_fails_witness :
  (Forall has_group [expect_active "1" "Active"]
   ∧ expect_standby "2" "Standby" !! "Group" = Some "2"
   ∧ Forall has_group [expect_standby "2" "Standby"]
   ∧ ({[ "1" := "active" ]} : gmap string string) !! "2" = None
   ∧ expects_standby (expect_standby "2" "Standby") = true
   ∧ Forall (no_active_for "2") [expect_standby "2" "Standby"])
  ∧ ∃ results,
      validate_hsrp {[ "1" := "active" ]}
        ([expect_active "1" "Active"] ++ expect_standby "2" "Standby"
           :: [expect_standby "2" "Standby"]) "CPE2"
      = Ok results
      ∧ ∃ verdict,
          results !! ("grp" +:+ "2") = Some verdict
          ∧ verdict !! "Standby" = Some ("Failed : " +:+ "CPE2" +:+ " No longer Standby").
Proof.
  assert (Forall has_group [expect_active "1" "Active"]) as Hpre.
  { repeat constructor. eexists. reflexivity. }
  assert (Forall has_group [expect_standby "2" "Standby"]) as Hpost.
  { repeat constructor. eexists. reflexivity. }
  assert (Forall (no_active_for "2") [expect_standby "2" "Standby"]) as Hno.
  { repeat constructor. }
  split; [repeat split; (reflexivity || assumption)|].
  destruct (absent_group_fails {[ "1" := "active" ]}
              [expect_active "1" "Active"] [expect_standby "2" "Standby"]
              (expect_standby "2" "Standby") "2" "CPE2")
    as (results & Hres & _ & Hstandby);
    [exact Hpre|reflexivity|exact Hpost|reflexivity|].
  exists results. split; [exact Hres|]. exact (Hstandby eq_refl Hno).
Defined.

(** C8.  A single entry with both expectations set yields one record under
    the composite key of its group, holding both fields; both are computed
    from the one observed state that was looked up for the group. *)
Theorem both_flags_one_record (standby_data : gmap string string)
    (condition : gmap string string) (g device_name : string) :
  condition !! "Group" = Some g →
  expects_active condition = true →
  expects_standby condition = true →
  ∃ actual_state,
    actual_state = default "" (standby_data !! g)
    ∧ validate_hsrp standby_data [condition] device_name
      = Ok {[ "grp" +:+ g :=
                {[ "Active" :=
                     if decide (actual_state = "active") then "pass"
                     else "Failed : " +:+ device_name +:+ " No longer Active";
                   "Standby" :=
                     if decide (actual_state = "standby") then "pass"
                     else "Failed : " +:+ device_name +:+ " No longer Standby" ]} ]}.
Proof.
  intros Hg Ha Hs. eexists. split; [reflexivity|].
  rewrite validate_hsrp_eq by (repeat constructor; by exists g).
  f_equal. simpl. unfold apply_condition. rewrite Hg, Ha, Hs.
  apply map_eq. intros k. fold (key g). destruct (decide (k = key g)) as [->|Hk].
  - rewrite record_lookup_key, lookup_singleton_eq. reflexivity.
  - rewrite record_lookup_ne by done.
    by rewrite lookup_empty, lookup_singleton_ne.
Qed.

Lemma both_flags_one_record_witness :
  (expect_both "1" "Active" "Standby" !! "Group" = Some "1"
   ∧ expects_active (expect_both "1" "Active" "Standby") = true
   ∧ expects_standby (expect_both "1" "Active" "Standby") = true)
  ∧ validate_hsrp {[ "1" := "standby" ]} [expect_both "1" "Active" "Standby"] "CPE1"
    = Ok {[ "grp1" := {[ "Active" := "Failed : CPE1 No longer Active";
                         "Standby" := "pass" ]} ]}.
Proof.
  split; [repeat split; reflexivity|].
  destruct (both_flags_one_record {[ "1" := "standby" ]}
              (expect_both "1" "Active" "Standby") "1" "CPE1")
    as (actual_state & -> & H); [reflexivity..|].
  exact H.
Defined.

(** ** Nothing is raised *)

Lemma active_verdict_cases (actual_state device_name : string) :
  active_verdict actual_state device_name = "pass"
  ∨ active_verdict actual_state device_name
    = "Failed : " +:+ device_name +:+ " No longer Active".
Proof. unfold active_verdict. case_decide; auto. Qed.

Lemma standby_verdict_cases (actual_state device_name : string) :
  standby_verdict actual_state device_name = "pass"
  ∨ standby_verdict actual_state device_name
    = "Failed : " +:+ device_name +:+ " No longer Standby".
Proof. unfold standby_verdict. case_decide; auto. Qed.

Lemma record_only_verdicts (standby_data : gmap string string) (device_name g : string)
    (a s : bool) (results : gmap string (gmap string string)) :
  only_verdicts device_name results →
  only_verdicts device_name (record standby_data device_name g a s results).
Proof.
  intros Hres k verdict field x Hk Hfield.
  destruct (decide (k = key g)) as [->|Hne];
    [|rewrite record_lookup_ne in Hk by done; by eapply Hres].
  rewrite record_lookup_key in Hk.
  pose proof (active_verdict_cases (get standby_data g "") device_name) as Hav.
  pose proof (standby_verdict_cases (get standby_data g "") device_name) as Hsv.
  destruct a, s; simplify_eq.
  - apply lookup_insert_Some in Hfield as [[_ <-]|[_ Hfield]]; [tauto|].
    apply lookup_singleton_Some in Hfield as [_ <-]. tauto.
  - apply lookup_singleton_Some in Hfield as [_ <-]. tauto.
  - apply lookup_insert_Some in Hfield as [[_ <-]|[_ Hfield]]; [tauto|].
    unfold get in Hfield.
    destruct (results !! key g) as [old|] eqn:Hold; simpl in Hfield.
    + by eapply Hres.
    + by rewrite lookup_empty in Hfield.
  - by eapply Hres.
Qed.

Lemma foldl_only_verdicts (standby_data : gmap string string) (device_name : string)
    (conds : list (gmap string string)) (results : gmap string (gmap string string)) :
  only_verdicts device_name results →
  only_verdicts device_name
    (foldl (apply_condition standby_data device_name) results conds).
Proof.
  revert results. induction conds as [|c conds IH]; intros results Hres; [done|].
  simpl. apply IH. unfold apply_condition.
  destruct (c !! "Group"); [|done]. by apply record_only_verdicts.
Qed.

(** C9, as amended.  The parser returns a mapping for every text, the empty
    mapping for the empty text and for a text none of whose lines is read.
    The validator returns a result for every observed mapping, device name
    and list of entries that each carry a group, the empty result for the
    empty list; whatever the flags of the entries and whether or not their
    groups were observed, every field of the result is the pass marker or a
    failure message.  An entry without a group is the one input on which
    the validator raises. *)
Theorem never_raises :
  (∀ output, ∃ d, parse_show_standby_brief output = Ok d)
  ∧ parse_show_standby_brief "" = Ok ∅
  ∧ (∀ output,
       Forall (λ line, ¬ contributes line) (PyStr.splitlines output) →
       parse_show_standby_brief output = Ok ∅)
  ∧ (∀ standby_data device_name,
       validate_hsrp standby_data [] device_name = Ok ∅)
  ∧ (∀ standby_data expected_conditions device_name,
       Forall has_group expected_conditions →
       ∃ results,
         validate_hsrp standby_data expected_conditions device_name = Ok results
         ∧ only_verdicts device_name results).
Proof.
  split; [intros output; eexists; apply parse_show_standby_brief_eq|].
  split; [reflexivity|]. split; [|split; [reflexivity|]].
  - intros output Hlines. rewrite parse_show_standby_brief_eq. f_equal.
    apply foldl_add_entry_skip. eapply Forall_impl; [exact Hlines|].
    intros line Hno. unfold line_entry.
    destruct (fields line) eqn:Hf; [|done].
    destruct Hno. apply contributes_fields. by eexists.
  - intros standby_data conds device_name Hall. eexists.
    split; [by apply validate_hsrp_eq|].
    apply foldl_only_verdicts. intros k verdict field x Hk.
    by rewrite lookup_empty in Hk.
Qed.

Lemma never_raises_witness :
  (Forall (λ line, ¬ contributes line) (PyStr.splitlines "no table here")
   ∧ Forall has_group [expect_both "7" "Active" "Standby"])
  ∧ parse_show_standby_brief "no table here" = Ok ∅
  ∧ ∃ results,
      validate_hsrp ∅ [expect_both "7" "Active" "Standby"] "CPE1" = Ok results
      ∧ only_verdicts "CPE1" results.
Proof.
  assert (Forall (λ line, ¬ contributes line) (PyStr.splitlines "no table here"))
    as Hlines.
  { repeat constructor. unfold contributes. vm_compute. intros [m Hm]. discriminate Hm. }
  assert (Forall has_group [expect_both "7" "Active" "Standby"]) as Hall.
  { repeat constructor. eexists. reflexivity. }
  split; [split; [exact Hlines|exact Hall]|].
  split.
  - exact (proj1 (proj2 (proj2 never_raises)) "no table here" Hlines).
  - exact (proj2 (proj2 (proj2 (proj2 never_raises))) ∅
             [expect_both "7" "Active" "Standby"] "CPE1" Hall).
Defined.

(** An entry that carries no group is not an expectation entry: looking up
    its group raises. *)
Lemma no_group_raises (standby_data : gmap string string) (device_name : string) :
  validate_hsrp standby_data [{[ "ExpectedActiveState" := "Active" ]}] device_name
  = Raise (KeyError "Group").
Proof. reflexivity. Qed.

(** C9, the claim as stated fails: on an expectation list whose entry has no
    "Group" the validator raises the key error and returns no result. *)
Lemma entry_without_group_raises :
  validate_hsrp {[ "1" := "active" ]} [{[ "ExpectedActiveState" := "Active" ]}] "CPE1"
  = Raise (KeyError "Group")
  ∧ ¬ ∃ results,
        validate_hsrp {[ "1" := "active" ]}
          [{[ "ExpectedActiveState" := "Active" ]}] "CPE1"
        = Ok results.
Proof.
  assert (validate_hsrp {[ "1" := "active" ]}
            [{[ "ExpectedActiveState" := "Active" ]}] "CPE1"
          = Raise (KeyError "Group")) as H by reflexivity.
  split; [exact H|]. intros [results Hres]. rewrite H in Hres. discriminate Hres.
Qed.

(** * Further properties of the program *)

(** ** What the parser puts in the mapping *)

Lemma foldl_add_entry_sound (lines : list string) (d : gmap string string)
    (g st : string) :
  foldl add_entry d lines !! g = Some st →
  d !! g = Some st ∨ ∃ line, line ∈ lines ∧ line_entry line = Some (g, st).
Proof.
  revert d. induction lines as [|l lines IH]; intros d Hlookup; [by left|].
  simpl in Hlookup. apply IH in Hlookup as [Hl|(line & Hin & Hline)].
  - unfold add_entry in Hl. destruct (line_entry l) as [[g' st']|] eqn:El; [|by left].
    apply lookup_insert_Some in Hl as [[-> ->]|[_ Hd]]; [|by left].
    right. exists l. split; [by left|done].
  - right. exists line. split; [by right|done].
Qed.

Lemma line_entry_tokens (line g st : string) :
  line_entry line = Some (g, st) →
  contributes line
  ∧ PyStr.split line !! 1 = Some g
  ∧ ∃ t4, PyStr.split line !! 3 = Some t4 ∧ st = PyStr.lower t4.
Proof.
  unfold line_entry. destruct (fields line) as [gs|] eqn:Hf; [|done].
  pose proof Hf as Hinv.
  apply fields_inv in Hinv as (_ & t1&t2&t3&t4&t5&t6&t7&rest & Hsplit & _ & ->).
  intros [= <- <-]. split; [apply contributes_fields; by eexists|].
  rewrite Hsplit. split; [done|]. by exists t4.
Qed.

(** X1.  The parser invents nothing: every group of the mapping is the
    second token of a line of the text that the pattern matches, and its
    state is the fourth token of that line in lower case. *)
Theorem parsed_entries_come_from_lines (output : string) :
  ∃ d,
    parse_show_standby_brief output = Ok d
    ∧ ∀ g st,
        d !! g = Some st →
        ∃ line t4,
          line ∈ PyStr.splitlines output
          ∧ contributes line
          ∧ PyStr.split line !! 1 = Some g
          ∧ PyStr.split line !! 3 = Some t4
          ∧ st = PyStr.lower t4.
Proof.
  eexists. split; [apply parse_show_standby_brief_eq|].
  intros g st Hlookup.
  apply foldl_add_entry_sound in Hlookup as [Hempty|(line & Hin & Hline)].
  { by rewrite lookup_empty in Hempty. }
  apply line_entry_tokens in Hline as (Hc & Hg & t4 & Ht4 & ->).
  by exists line, t4.
Qed.

Lemma lower_char_idemp (a : ascii) :
  PyStr.lower_char (PyStr.lower_char a) = PyStr.lower_char a.
Proof. by destruct a as [[] [] [] [] [] [] [] []]. Qed.

Lemma lower_idemp (s : string) : PyStr.lower (PyStr.lower s) = PyStr.lower s.
Proof.
  induction s as [|a s IH]; [done|]. simpl. by rewrite lower_char_idemp, IH.
Qed.

(** X2.  Every state of the mapping is in lower case: lowering it again
    changes nothing, so the letter case of the state column of the device
    never reaches the validator. *)
Theorem parsed_states_lower_case (output : string) :
  ∃ d,
    parse_show_standby_brief output = Ok d
    ∧ ∀ g st, d !! g = Some st → PyStr.lower st = st.
Proof.
  eexists. split; [apply parse_show_standby_brief_eq|].
  intros g st Hlookup.
  apply foldl_add_entry_sound in Hlookup as [Hempty|(line & _ & Hline)].
  { by rewrite lookup_empty in Hempty. }
  apply line_entry_tokens in Hline as (_ & _ & t4 & _ & ->).
  apply lower_idemp.
Qed.

(** ** Two texts, one after the other *)

Lemma splitlines_from_cons (cur : string) (c : ascii) (s : string) :
  PyStr.splitlines_from cur (String c s) =
    if PyStr.islinebreak c then cur :: PyStr.splitlines_from "" (after_break c s)
    else PyStr.splitlines_from (cur +:+ String c "") s.
Proof.
  destruct c as [[] [] [] [] [] [] [] []]; try reflexivity;
    destruct s as [|[[] [] [] [] [] [] [] []] s]; reflexivity.
Qed.

Lemma after_break_app (c : ascii) (a s : string) :
  a ≠ "" → after_break c (a +:+ s) = after_break c a +:+ s.
Proof.
  destruct a as [|c' a]; [done|]. intros _. rewrite app_cons. simpl.
  by destruct (Ascii.eqb c "013" && Ascii.eqb c' "010").
Qed.

Lemma after_break_LF (s : string) : after_break "010" s = s.
Proof. by destruct s. Qed.

Lemma after_break_length (c : ascii) (s : string) :
  String.length (after_break c s) ≤ String.length s.
Proof.
  destruct s as [|c' s]; [done|]. simpl.
  destruct (Ascii.eqb c "013" && Ascii.eqb c' "010"); simpl; lia.
Qed.

(** The lines of [a], a line feed and [b] are the lines of [a], then at
    most one empty line, then the lines of [b]. *)
Lemma splitlines_from_app_LF (n : nat) (a cur b : string) :
  String.length a ≤ n →
  ∃ mid,
    (mid = [] ∨ mid = [""])
    ∧ PyStr.splitlines_from cur (a +:+ LF +:+ b)
      = PyStr.splitlines_from cur a ++ mid ++ PyStr.splitlines b.
Proof.
  revert a cur. induction n as [|n IH]; intros a cur Hlen.
  - destruct a as [|c a]; [|simpl in Hlen; lia].
    rewrite app_empty_l. unfold LF. rewrite app_cons, app_empty_l.
    rewrite splitlines_from_cons. simpl. rewrite after_break_LF.
    destruct cur as [|c cur]; simpl.
    + exists [""]. split; [by right|done].
    + exists []. split; [by left|done].
  - destruct a as [|c a]; [apply (IH "" cur); simpl; lia|].
    simpl in Hlen. rewrite app_cons, !splitlines_from_cons.
    destruct (PyStr.islinebreak c) eqn:Hc; [|apply IH; lia].
    destruct a as [|c' a].
    + rewrite app_empty_l. unfold LF. rewrite app_cons, app_empty_l. simpl.
      destruct (Ascii.eqb c "013") eqn:Hcr; simpl.
      * exists []. split; [by left|done].
      * exists [""]. split; [by right|done].
    + rewrite after_break_app by done.
      destruct (IH (after_break c (String c' a)) "") as (mid & Hmid & Heq).
      { pose proof (after_break_length c (String c' a)). simpl in *. lia. }
      exists mid. split; [done|]. by rewrite Heq.
Qed.

Lemma foldl_add_entry_union (lines : list string) (d : gmap string string) :
  foldl add_entry d lines = foldl add_entry ∅ lines ∪ d.
Proof.
  revert d. induction lines as [|l lines IH]; intros d.
  - simpl. by rewrite (left_id_L ∅ (∪)).
  - simpl. rewrite (IH (add_entry d l)), (IH (add_entry ∅ l)).
    unfold add_entry. destruct (line_entry l) as [[g st]|].
    + rewrite insert_empty, <- (assoc_L (∪)). by rewrite <- insert_union_singleton_l.
    + by rewrite (right_id_L ∅ (∪)).
Qed.

(** X3.  Parsing one text, a line feed and a second text gives the mapping
    of the second text laid over the mapping of the first: a group has the
    state the second text gives it, and otherwise the state the first text
    gives it. *)
Theorem parse_two_texts (a b : string) :
  ∃ da db,
    parse_show_standby_brief a = Ok da
    ∧ parse_show_standby_brief b = Ok db
    ∧ parse_show_standby_brief (a +:+ LF +:+ b) = Ok (db ∪ da).
Proof.
  eexists _, _. split; [apply parse_show_standby_brief_eq|].
  split; [apply parse_show_standby_brief_eq|].
  rewrite parse_show_standby_brief_eq. f_equal. unfold PyStr.splitlines at 1.
  destruct (splitlines_from_app_LF (String.length a) a "" b) as (mid & Hmid & ->);
    [done|].
  rewrite !foldl_app. fold (PyStr.splitlines a).
  assert (foldl add_entry (foldl add_entry ∅ (PyStr.splitlines a)) mid
          = foldl add_entry ∅ (PyStr.splitlines a)) as ->.
  { by destruct Hmid as [-> | ->]. }
  apply foldl_add_entry_union.
Qed.

(** ** What the validator puts in the results *)

Lemma truthy_lower (s : string) : PyStr.truthy (PyStr.lower s) = PyStr.truthy s.
Proof. by destruct s. Qed.

Lemma truthy_true (s : string) : PyStr.truthy s = true ↔ s ≠ "".
Proof. by destruct s. Qed.

Lemma expects_active_set (c : gmap string string) :
  expects_active c = true ↔ get c "ExpectedActiveState" "" ≠ "".
Proof. unfold expects_active. by rewrite truthy_lower, truthy_true. Qed.

Lemma expects_standby_set (c : gmap string string) :
  expects_standby c = true ↔ get c "ExpectedStandbyState" "" ≠ "".
Proof. unfold expects_standby. by rewrite truthy_lower, truthy_true. Qed.

Lemma for_in_ext {A S} (body body' : S → A → result S) (l : list A) (s : S) :
  (∀ s x, x ∈ l → body s x = body' s x) →
  for_in l body s = for_in l body' s.
Proof.
  revert s. induction l as [|x l IH]; intros s Hbody; [done|].
  simpl. rewrite Hbody by left. destruct (body' s x) as [s'|e]; [|done].
  simpl. apply IH. intros s'' y Hy. apply Hbody. by right.
Qed.

Lemma record_is_Some (standby_data : gmap string string) (device_name g k : string)
    (a s : bool) (results : gmap string (gmap string string)) :
  is_Some (record standby_data device_name g a s results !! k)
  ↔ is_Some (results !! k) ∨ (k = key g ∧ (a = true ∨ s = true)).
Proof.
  destruct (decide (k = key g)) as [->|Hk].
  - rewrite record_lookup_key.
    destruct a, s;
      (split;
       [intros H; first [by left | right; split; [done|]; first [by left | by right]]
       |intros [H|[_ [?|?]]]; first [done | by eexists]]).
  - rewrite record_lookup_ne by done. split; [by left|].
    intros [H|[? _]]; done.
Qed.

Lemma foldl_apply_is_Some (standby_data : gmap string string) (device_name : string)
    (conds : list (gmap string string)) (k : string)
    (results : gmap string (gmap string string)) :
  is_Some (foldl (apply_condition standby_data device_name) results conds !! k)
  ↔ is_Some (results !! k)
    ∨ ∃ c g, c ∈ conds ∧ c !! "Group" = Some g ∧ k = key g
             ∧ (expects_active c = true ∨ expects_standby c = true).
Proof.
  revert results. induction conds as [|c conds IH]; intros results.
  - simpl. split; [by left|]. intros [H|(c & g & Hc & _)]; [done|].
    by apply elem_of_nil in Hc.
  - simpl. rewrite IH. unfold apply_condition at 1.
    destruct (c !! "Group") as [g|] eqn:Hg.
    + rewrite record_is_Some. split.
      * intros [[H|[-> Hset]]|(c' & g' & Hc' & Hrest)].
        -- by left.
        -- right. exists c, g. split; [by left|done].
        -- right. exists c', g'. split; [by right|done].
      * intros [H|(c' & g' & Hc' & Hg' & -> & Hset)]; [by left; left|].
        apply elem_of_cons in Hc' as [->|Hc'].
        -- left. right. by simplify_eq.
        -- right. by exists c', g'.
    + split.
      * intros [H|(c' & g' & Hc' & Hrest)]; [by left|].
        right. exists c', g'. split; [by right|done].
      * intros [H|(c' & g' & Hc' & Hg' & Hrest)]; [by left|].
        apply elem_of_cons in Hc' as [->|Hc']; [congruence|].
        right. by exists c', g'.
Qed.

(** X4.  The keys of the result are the composite keys of the groups of the
    entries that set an expectation, and nothing else: a group no entry
    names is not reported, and neither is an entry that sets no
    expectation. *)
Theorem result_keys (standby_data : gmap string string)
    (expected_conditions : list (gmap string string)) (device_name : string) :
  Forall has_group expected_conditions →
  ∃ results,
    validate_hsrp standby_data expected_conditions device_name = Ok results
    ∧ ∀ k,
        is_Some (results !! k) ↔
        ∃ condition g,
          condition ∈ expected_conditions
          ∧ condition !! "Group" = Some g
          ∧ k = "grp" +:+ g
          ∧ (get condition "ExpectedActiveState" "" ≠ ""
             ∨ get condition "ExpectedStandbyState" "" ≠ "").
Proof.
  intros Hall. eexists. split; [by apply validate_hsrp_eq|].
  intros k. rewrite foldl_apply_is_Some, lookup_empty. split.
  - intros [[? H]|(c & g & Hc & Hg & -> & Hset)]; [done|].
    exists c, g. by rewrite <- expects_active_set, <- expects_standby_set.
  - intros (c & g & Hc & Hg & -> & Hset). right.
    exists c, g. by rewrite expects_active_set, expects_standby_set.
Qed.

Lemma result_keys_witness :
  Forall has_group
    [expect_active "1" "Active"; {[ "Group" := "3" ]}; expect_standby "2" "Standby"]
  ∧ ∃ results,
      validate_hsrp {[ "1" := "active"; "4" := "standby" ]}
        [expect_active "1" "Active"; {[ "Group" := "3" ]}; expect_standby "2" "Standby"]
        "CPE1"
      = Ok results
      ∧ ∀ k,
          is_Some (results !! k) ↔
          ∃ condition g,
            condition ∈ [expect_active "1" "Active"; {[ "Group" := "3" ]};
                         expect_standby "2" "Standby"]
            ∧ condition !! "Group" = Some g
            ∧ k = "grp" +:+ g
            ∧ (get condition "ExpectedActiveState" "" ≠ ""
               ∨ get condition "ExpectedStandbyState" "" ≠ "").
Proof.
  assert (Forall has_group
            [expect_active "1" "Active"; {[ "Group" := "3" ]};
             expect_standby "2" "Standby"]) as Hall.
  { repeat constructor; eexists; reflexivity. }
  split; [exact Hall|].
  exact (result_keys {[ "1" := "active"; "4" := "standby" ]} _ "CPE1" Hall).
Defined.

(** ** The records hold the verdicts of their group *)

Lemma record_sound (standby_data : gmap string string) (device_name g : string)
    (a s : bool) (results : gmap string (gmap string string)) :
  sound_results standby_data device_name results →
  sound_results standby_data device_name
    (record standby_data device_name g a s results).
Proof.
  intros Hres k verdict Hk.
  destruct (decide (k = key g)) as [->|Hne];
    [|rewrite record_lookup_ne in Hk by done; by apply Hres].
  rewrite record_lookup_key in Hk. exists g. split; [done|].
  intros field x Hfield.
  destruct a, s; simplify_eq.
  - apply lookup_insert_Some in Hfield as [[<- <-]|[_ Hfield]]; [by right|].
    apply lookup_singleton_Some in Hfield as [<- <-]. by left.
  - apply lookup_singleton_Some in Hfield as [<- <-]. by left.
  - apply lookup_insert_Some in Hfield as [[<- <-]|[_ Hfield]]; [by right|].
    unfold get in Hfield.
    destruct (results !! key g) as [old|] eqn:Hold; simpl in Hfield;
      [|by rewrite lookup_empty in Hfield].
    destruct (Hres _ _ Hold) as (g' & Hkey & Hfields).
    apply key_inj in Hkey as <-. by apply Hfields.
  - destruct (Hres _ _ Hk) as (g' & Hkey & Hfields).
    apply key_inj in Hkey as <-. by apply Hfields.
Qed.

Lemma foldl_sound (standby_data : gmap string string) (device_name : string)
    (conds : list (gmap string string)) (results : gmap string (gmap string string)) :
  sound_results standby_data device_name results →
  sound_results standby_data device_name
    (foldl (apply_condition standby_data device_name) results conds).
Proof.
  revert results. induction conds as [|c conds IH]; intros results Hres; [done|].
  simpl. apply IH. unfold apply_condition.
  destruct (c !! "Group"); [|done]. by apply record_sound.
Qed.

Lemma sound_empty (standby_data : gmap string string) (device_name : string) :
  sound_results standby_data device_name ∅.
Proof. intros k verdict Hk. by rewrite lookup_empty in Hk. Qed.

(** X5.  Every record of the result sits under the composite key of a
    group, has no field but "Active" and "Standby", and each field it has is
    the verdict that the observed state of that group gives: a record never
    carries the verdict of another group. *)
Theorem results_sound (standby_data : gmap string string)
    (expected_conditions : list (gmap string string)) (device_name : string) :
  Forall has_group expected_conditions →
  ∃ results,
    validate_hsrp standby_data expected_conditions device_name = Ok results
    ∧ ∀ k verdict,
        results !! k = Some verdict →
        ∃ g,
          k = "grp" +:+ g
          ∧ ∀ field x,
              verdict !! field = Some x →
              (field = "Active"
               ∧ x = (if decide (default "" (standby_data !! g) = "active")
                      then "pass"
                      else "Failed : " +:+ device_name +:+ " No longer Active"))
              ∨ (field = "Standby"
                 ∧ x = (if decide (default "" (standby_data !! g) = "standby")
                        then "pass"
                        else "Failed : " +:+ device_name +:+ " No longer Standby")).
Proof.
  intros Hall. eexists. split; [by apply validate_hsrp_eq|].
  intros k verdict Hk.
  pose proof (foldl_sound standby_data device_name expected_conditions ∅
                (sound_empty _ _)) as Hsound.
  destruct (Hsound k verdict Hk) as (g & -> & Hfields).
  exists g. split; [done|]. intros field x Hfield.
  by apply Hfields.
Qed.

Lemma results_sound_witness :
  Forall has_group [expect_both "1" "Active" "Standby"; expect_standby "2" "Standby"]
  ∧ ∃ results,
      validate_hsrp {[ "1" := "active"; "2" := "init" ]}
        [expect_both "1" "Active" "Standby"; expect_standby "2" "Standby"] "CPE1"
      = Ok results
      ∧ ∀ k verdict,
          results !! k = Some verdict →
          ∃ g,
            k = "grp" +:+ g
            ∧ ∀ field x,
                verdict !! field = Some x →
                (field = "Active"
                 ∧ x = (if decide (default ""
                                     (({[ "1" := "active"; "2" := "init" ]}
                                         : gmap string string) !! g) = "active")
                        then "pass"
                        else "Failed : " +:+ "CPE1" +:+ " No longer Active"))
                ∨ (field = "Standby"
                   ∧ x = (if decide (default ""
                                       (({[ "1" := "active"; "2" := "init" ]}
                                           : gmap string string) !! g) = "standby")
                          then "pass"
                          else "Failed : " +:+ "CPE1" +:+ " No longer Standby")).
Proof.
  assert (Forall has_group
            [expect_both "1" "Active" "Standby"; expect_standby "2" "Standby"])
    as Hall.
  { repeat constructor; eexists; reflexivity. }
  split; [exact Hall|].
  exact (results_sound {[ "1" := "active"; "2" := "init" ]} _ "CPE1" Hall).
Defined.

(** X6.  No record of the result passes both expectations: the two fields
    of a record are verdicts on one observed state, which cannot be both
    "active" and "standby". *)
Theorem never_both_pass (standby_data : gmap string string)
    (expected_conditions : list (gmap string string)) (device_name : string) :
  Forall has_group expected_conditions →
  ∃ results,
    validate_hsrp standby_data expected_conditions device_name = Ok results
    ∧ ∀ k verdict,
        results !! k = Some verdict →
        ¬ (verdict !! "Active" = Some "pass" ∧ verdict !! "Standby" = Some "pass").
Proof.
  intros Hall. eexists. split; [by apply validate_hsrp_eq|].
  intros k verdict Hk [Hactive Hstandby].
  pose proof (foldl_sound standby_data device_name expected_conditions ∅
                (sound_empty _ _)) as Hsound.
  destruct (Hsound k verdict Hk) as (g & _ & Hfields).
  destruct (Hfields _ _ Hactive) as [[_ Ha]|[? _]]; [|done].
  destruct (Hfields _ _ Hstandby) as [[? _]|[_ Hs]]; [done|].
  symmetry in Ha, Hs.
  apply active_verdict_pass in Ha. apply standby_verdict_pass in Hs.
  congruence.
Qed.

Lemma never_both_pass_witness :
  Forall has_group [expect_both "1" "Active" "Standby"]
  ∧ ∃ results,
      validate_hsrp {[ "1" := "active" ]} [expect_both "1" "Active" "Standby"] "CPE1"
      = Ok results
      ∧ ∀ k verdict,
          results !! k = Some verdict →
          ¬ (verdict !! "Active" = Some "pass" ∧ verdict !! "Standby" = Some "pass").
Proof.
  assert (Forall has_group [expect_both "1" "Active" "Standby"]) as Hall.
  { repeat constructor; eexists; reflexivity. }
  split; [exact Hall|].
  exact (never_both_pass {[ "1" := "active" ]} _ "CPE1" Hall).
Defined.

(** ** What the validator looks at *)

Lemma truthy_eq (s s' : string) :
  (s = "" ↔ s' = "") → PyStr.truthy s = PyStr.truthy s'.
Proof.
  destruct s, s'; simpl; intros [H1 H2]; try done.
  - by specialize (H1 eq_refl).
  - by specialize (H2 eq_refl).
Qed.

Lemma validate_condition_same (standby_data : gmap string string) (device_name : string)
    (results : gmap string (gmap string string)) (c c' : gmap string string) :
  same_expectations c c' →
  validate_condition standby_data device_name results c
  = validate_condition standby_data device_name results c'.
Proof.
  intros (Hg & Ha & Hs). unfold validate_condition, getitem. rewrite Hg.
  destruct (c' !! "Group") as [g|]; [|done]. simpl.
  rewrite !truthy_lower.
  by rewrite (truthy_eq _ _ Ha), (truthy_eq _ _ Hs).
Qed.

Lemma for_in_Forall2 {A S} (body : S → A → result S) (l l' : list A) (s : S) :
  Forall2 (λ x x', ∀ s, body s x = body s x') l l' →
  for_in l body s = for_in l' body s.
Proof.
  intros H. revert s. induction H as [|x x' l l' Hx _ IH]; intros s; [done|].
  simpl. rewrite Hx. destruct (body s x') as [s'|e]; [|done]. apply IH.
Qed.

(** X7.  The validator reads an expectation only as set or not set: the
    value written for "ExpectedActiveState" or "ExpectedStandbyState" is
    never compared with anything.  Two lists whose entries, position by
    position, name the same group and set the same expectations give the
    same outcome; an entry with "ExpectedActiveState" set to "Standby"
    still expects the active state. *)
Theorem expectation_values_ignored (standby_data : gmap string string)
    (l l' : list (gmap string string)) (device_name : string) :
  Forall2 same_expectations l l' →
  validate_hsrp standby_data l device_name
  = validate_hsrp standby_data l' device_name.
Proof.
  intros H. unfold validate_hsrp. apply for_in_Forall2.
  eapply Forall2_impl; [exact H|].
  intros c c' Hsame results. by apply validate_condition_same.
Qed.

Lemma expectation_values_ignored_witness :
  Forall2 same_expectations
    [expect_active "1" "Active"] [expect_active "1" "Standby"]
  ∧ validate_hsrp {[ "1" := "standby" ]} [expect_active "1" "Standby"] "CPE1"
    = Ok {[ "grp1" := {[ "Active" := "Failed : CPE1 No longer Active" ]} ]}.
Proof.
  assert (Forall2 same_expectations
            [expect_active "1" "Active"] [expect_active "1" "Standby"]) as H.
  { repeat constructor; (reflexivity || (intros ?; discriminate)). }
  split; [exact H|].
  rewrite <- (expectation_values_ignored {[ "1" := "standby" ]} _ _ "CPE1" H).
  vm_compute. reflexivity.
Defined.

Lemma validate_condition_agree (standby_data standby_data' : gmap string string)
    (device_name : string) (results : gmap string (gmap string string))
    (c : gmap string string) :
  (∀ g, c !! "Group" = Some g → standby_data !! g = standby_data' !! g) →
  validate_condition standby_data device_name results c
  = validate_condition standby_data' device_name results c.
Proof.
  intros Hagree. unfold validate_condition, getitem.
  destruct (c !! "Group") as [g|] eqn:Hg; [|done]. simpl.
  assert (get standby_data g "" = get standby_data' g "") as ->; [|done].
  unfold get. by rewrite (Hagree g).
Qed.

(** X8.  The validator looks up the observed state of the groups its
    entries name and of no other group: two observed mappings that agree on
    those groups give the same outcome, whatever else they hold. *)
Theorem other_groups_ignored (standby_data standby_data' : gmap string string)
    (expected_conditions : list (gmap string string)) (device_name : string) :
  (∀ condition g,
     condition ∈ expected_conditions →
     condition !! "Group" = Some g →
     standby_data !! g = standby_data' !! g) →
  validate_hsrp standby_data expected_conditions device_name
  = validate_hsrp standby_data' expected_conditions device_name.
Proof.
  intros Hagree. unfold validate_hsrp. apply for_in_ext.
  intros results c Hc. apply validate_condition_agree.
  intros g Hg. by apply (Hagree c).
Qed.

Lemma other_groups_ignored_witness :
  (∀ condition g,
     condition ∈ [expect_active "1" "Active"] →
     condition !! "Group" = Some g →
     ({[ "1" := "active" ]} : gmap string string) !! g
     = ({[ "1" := "active"; "9" := "standby" ]} : gmap string string) !! g)
  ∧ validate_hsrp {[ "1" := "active" ]} [expect_active "1" "Active"] "CPE1"
    = validate_hsrp {[ "1" := "active"; "9" := "standby" ]}
        [expect_active "1" "Active"] "CPE1".
Proof.
  assert (∀ condition g,
            condition ∈ [expect_active "1" "Active"] →
            condition !! "Group" = Some g →
            ({[ "1" := "active" ]} : gmap string string) !! g
            = ({[ "1" := "active"; "9" := "standby" ]} : gmap string string) !! g)
    as H.
  { intros c g Hc Hg. apply list_elem_of_singleton in Hc as ->.
    rewrite expect_active_group in Hg. injection Hg as <-. reflexivity. }
  split; [exact H|].
  exact (other_groups_ignored _ _ _ "CPE1" H).
Defined.

(** ** The standby field *)

(** X9.  An entry with the standby expectation set leaves a standby field
    in the record of its group whenever no later entry for the same group
    sets the active expectation; the field is the pass marker if and only
    if the observed state of the group is exactly "standby", and the
    failure message for any other observed state, an absent group
    included. *)
Theorem standby_result (standby_data : gmap string string)
    (pre post : list (gmap string string)) (condition : gmap string string)
    (g device_name : string) :
  Forall has_group pre →
  condition !! "Group" = Some g →
  Forall has_group post →
  Forall (no_active_for g) post →
  expects_standby condition = true →
  ∃ results verdict s,
    validate_hsrp standby_data (pre ++ condition :: post) device_name = Ok results
    ∧ results !! ("grp" +:+ g) = Some verdict
    ∧ verdict !! "Standby" = Some s
    ∧ (s = "pass" ↔ standby_data !! g = Some "standby")
    ∧ (standby_data !! g ≠ Some "standby" →
       s = "Failed : " +:+ device_name +:+ " No longer Standby").
Proof.
  intros Hpre Hg Hpost Hno Hset.
  assert (Forall has_group (pre ++ condition :: post)) as Hall.
  { apply Forall_app. split; [done|]. constructor; [by exists g|done]. }
  assert (foldl (apply_condition standby_data device_name) ∅
            (pre ++ condition :: post) !! key g ≫= (.!! "Standby")
          = Some (standby_verdict (get standby_data g "") device_name)) as H.
  { rewrite foldl_app. simpl. apply foldl_standby_stays; [done..|].
    unfold apply_condition. rewrite Hg, record_standby.
    by rewrite bool_decide_eq_true_2, Hset. }
  apply bind_Some in H as (verdict & Hv & Hs).
  eexists _, verdict, _. split; [by apply validate_hsrp_eq|].
  split; [exact Hv|]. split; [exact Hs|]. split.
  - rewrite standby_verdict_pass. by apply get_exactly.
  - intros Hne. unfold standby_verdict. case_decide as Hst; [|done].
    by apply get_exactly in Hst.
Qed.

Lemma standby_result_witness :
  (Forall has_group [expect_active "2" "Active"]
   ∧ expect_standby "2" "Standby" !! "Group" = Some "2"
   ∧ Forall has_group [expect_active "1" "Active"]
   ∧ Forall (no_active_for "2") [expect_active "1" "Active"]
   ∧ expects_standby (expect_standby "2" "Standby") = true)
  ∧ ∃ results verdict s,
      validate_hsrp {[ "2" := "standby" ]}
        ([expect_active "2" "Active"] ++ expect_standby "2" "Standby"
           :: [expect_active "1" "Active"]) "CPE1"
      = Ok results
      ∧ results !! ("grp" +:+ "2") = Some verdict
      ∧ verdict !! "Standby" = Some s
      ∧ (s = "pass" ↔ ({[ "2" := "standby" ]} : gmap string string) !! "2"
                       = Some "standby")
      ∧ (({[ "2" := "standby" ]} : gmap string string) !! "2" ≠ Some "standby" →
         s = "Failed : " +:+ "CPE1" +:+ " No longer Standby").
Proof.
  assert (Forall has_group [expect_active "2" "Active"]) as Hpre.
  { repeat constructor; eexists; reflexivity. }
  assert (Forall has_group [expect_active "1" "Active"]) as Hpost.
  { repeat constructor; eexists; reflexivity. }
  assert (Forall (no_active_for "2") [expect_active "1" "Active"]) as Hno.
  { repeat constructor. intros Hg. rewrite expect_active_group in Hg. discriminate Hg. }
  split; [repeat split; (reflexivity || assumption)|].
  apply standby_result; (reflexivity || assumption).
Defined.

(** ** The missing group *)

Lemma for_in_validate_raises (standby_data : gmap string string)
    (device_name : string) (conds : list (gmap string string))
    (results : gmap string (gmap string string)) :
  Exists (λ c, c !! "Group" = None) conds →
  for_in conds (validate_condition standby_data device_name) results
  = Raise (KeyError "Group").
Proof.
  revert results. induction conds as [|c conds IH]; intros results Hex.
  - by apply Exists_nil in Hex.
  - simpl. destruct (c !! "Group") as [g|] eqn:Hg.
    + rewrite validate_condition_eq by (by exists g). simpl. apply IH.
      apply Exists_cons in Hex as [Hc|Hrest]; [congruence|done].
    + unfold validate_condition, getitem. by rewrite Hg.
Qed.

(** X10.  The validator raises exactly when some entry has no "Group": the
    exception is then the key error for "Group", whatever the other entries
    are and wherever the entry stands, and no partial result is returned. *)
Theorem raises_iff_group_missing (standby_data : gmap string string)
    (expected_conditions : list (gmap string string)) (device_name : string) :
  (validate_hsrp standby_data expected_conditions device_name
   = Raise (KeyError "Group")
   ↔ Exists (λ condition, condition !! "Group" = None) expected_conditions)
  ∧ ∀ e,
      validate_hsrp standby_data expected_conditions device_name = Raise e →
      e = KeyError "Group".
Proof.
  assert (Exists (λ c, c !! "Group" = None) expected_conditions
          ∨ Forall has_group expected_conditions) as [Hex|Hall].
  { induction expected_conditions as [|c l IH]; [by right|].
    destruct (c !! "Group") as [g|] eqn:Hg; [|by left; left].
    destruct IH as [Hex|Hall]; [by left; right|].
    right. constructor; [by exists g|done]. }
  - pose proof (for_in_validate_raises standby_data device_name _ ∅ Hex) as H.
    fold (validate_hsrp standby_data expected_conditions device_name) in H.
    rewrite H. split; [done|]. by intros e [= <-].
  - rewrite validate_hsrp_eq by done. split; [|done]. split; [done|].
    intros Hex. apply Exists_exists in Hex as (c & Hc & Hg).
    apply (proj1 (Forall_forall _ _) Hall) in Hc as [g Hg']. congruence.
Qed.

Lemma raises_iff_group_missing_witness :
  Exists (λ condition : gmap string string, condition !! "Group" = None)
    [expect_active "1" "Active"; {[ "ExpectedStandbyState" := "Standby" ]}]
  ∧ validate_hsrp {[ "1" := "active" ]}
      [expect_active "1" "Active"; {[ "ExpectedStandbyState" := "Standby" ]}] "CPE1"
    = Raise (KeyError "Group").
Proof.
  assert (Exists (λ condition : gmap string string, condition !! "Group" = None)
            [expect_active "1" "Active"; {[ "ExpectedStandbyState" := "Standby" ]}])
    as Hex.
  { right. left. reflexivity. }
  split; [exact Hex|].
  exact (proj2 (proj1 (raises_iff_group_missing {[ "1" := "active" ]} _ "CPE1")) Hex).
Defined.

(** ** Stripped output *)
















Example strip_example : strip ("  " +:+ example_line +:+ LF) = example_line.
Proof. reflexivity. Qed.

(** ** The report *)

Lemma report_device_eq
    (remote : string → string → string → string → option string)
    (final_results : gmap string (gmap string (gmap string string)))
    (device : Device.t) :
  well_configured device →
  report_device remote "show standby brief" final_results device
  = Ok (add_device remote final_results device).
Proof.
  intros Hconf.
  unfold report_device, add_device, device_report, usable_output, run_command.
  simpl. destruct (remote _ _ _ _) as [raw|]; [|done].
  destruct (PyStr.truthy (strip raw)); [|done].
  rewrite parse_show_standby_brief_eq. simpl.
  by rewrite validate_hsrp_eq.
Qed.

Lemma report_eq (remote : string → string → string → string → option string)
    (devices : list Device.t) :
  Forall well_configured devices →
  report remote devices = Ok (foldl (add_device remote) ∅ devices).
Proof.
  intros Hall. unfold report. apply for_in_ok.
  intros final device Hd. apply report_device_eq.
  by apply (proj1 (Forall_forall _ _) Hall).
Qed.

Lemma device_report_eq (remote : string → string → string → string → option string)
    (device : Device.t) (out : string) :
  well_configured device →
  usable_output remote device = Some out →
  ∃ standby_data device_results,
    parse_show_standby_brief out = Ok standby_data
    ∧ validate_hsrp standby_data (Device.conditions device) (Device.device_name device)
      = Ok device_results
    ∧ device_report remote device = Some device_results.
Proof.
  intros Hconf Hout. eexists _, _.
  split; [apply parse_show_standby_brief_eq|].
  split; [by apply validate_hsrp_eq|].
  unfold device_report. by rewrite Hout.
Qed.

Lemma foldl_add_device_other
    (remote : string → string → string → string → option string)
    (devices : list Device.t) (name : string)
    (final : gmap string (gmap string (gmap string string))) :
  Forall (λ d, Device.device_name d = name → usable_output remote d = None) devices →
  foldl (add_device remote) final devices !! name = final !! name.
Proof.
  revert final. induction devices as [|d devices IH]; intros final Hall; [done|].
  inversion_clear Hall as [|? ? Hd Hrest]. simpl. rewrite IH by done.
  unfold add_device, device_report.
  destruct (usable_output remote d) as [out|] eqn:Hout; [|done].
  apply lookup_insert_ne. intros Hname. by specialize (Hd Hname).
Qed.

Lemma foldl_add_device_keys
    (remote : string → string → string → string → option string)
    (devices : list Device.t) (name : string)
    (final : gmap string (gmap string (gmap string string))) :
  is_Some (foldl (add_device remote) final devices !! name) →
  is_Some (final !! name)
  ∨ ∃ d, d ∈ devices ∧ Device.device_name d = name
         ∧ is_Some (usable_output remote d).
Proof.
  revert final. induction devices as [|d devices IH]; intros final H; [by left|].
  simpl in H. apply IH in H as [H|(d' & Hd' & Hname & Hout)].
  - unfold add_device, device_report in H.
    destruct (usable_output remote d) as [out|] eqn:Hout; [|by left].
    destruct (decide (Device.device_name d = name)) as [Hname|Hname].
    + right. exists d. split; [by left|]. split; [done|]. by rewrite Hout.
    + rewrite lookup_insert_ne in H by done. by left.
  - right. exists d'. split; [by right|done].
Qed.

(** X12.  A device is left out of the report, without any trace, exactly
    when its command failed or printed nothing but whitespace: the report
    has an entry for a name if and only if some device of that name gave a
    usable output.  The loop itself raises nothing. *)
Theorem report_names (remote : string → string → string → string → option string)
    (devices : list Device.t) :
  Forall well_configured devices →
  ∃ final_results,
    report remote devices = Ok final_results
    ∧ ∀ name,
        is_Some (final_results !! name) ↔
        ∃ device,
          device ∈ devices
          ∧ Device.device_name device = name
          ∧ is_Some (usable_output remote device).
Proof.
  intros Hall. eexists. split; [by apply report_eq|].
  intros name. split.
  - intros H. apply foldl_add_device_keys in H as [[? H]|H]; [|done].
    by rewrite lookup_empty in H.
  - intros (d & Hd & Hname & out & Hout).
    apply list_elem_of_split in Hd as (pre & post & ->).
    rewrite foldl_app. simpl.
    generalize (foldl (add_device remote) ∅ pre). intros final.
    assert (is_Some (add_device remote final d !! name)) as Hhere.
    { unfold add_device, device_report. rewrite Hout, <- Hname.
      rewrite lookup_insert_eq. by eexists. }
    clear Hall. revert Hhere. generalize (add_device remote final d).
    induction post as [|d' post IH]; intros current Hcur; [done|].
    simpl. apply IH. unfold add_device.
    destruct (device_report remote d') as [r|]; [|done].
    destruct (decide (Device.device_name d' = name)) as [->|Hne].
    + rewrite lookup_insert_eq. by eexists.
    + by rewrite lookup_insert_ne.
Qed.

Lemma report_names_witness :
  Forall well_configured ssh_details
  ∧ ∃ final_results,
      report (λ host _ _ _, if decide (host = "CPE1_IP_or_Hostname")
                            then Some example_line else None) ssh_details
      = Ok final_results
      ∧ ∀ name,
          is_Some (final_results !! name) ↔
          ∃ device,
            device ∈ ssh_details
            ∧ Device.device_name device = name
            ∧ is_Some (usable_output
                         (λ host _ _ _, if decide (host = "CPE1_IP_or_Hostname")
                                        then Some example_line else None) device).
Proof.
  assert (Forall well_configured ssh_details) as Hall.
  { repeat constructor; eexists; reflexivity. }
  split; [exact Hall|].
  exact (report_names _ ssh_details Hall).
Defined.

(** X13.  When several devices of the list have the same name, the report
    holds under that name the validation of the last of them that gave a
    usable output: it is the result of validating its expectation entries
    against the mapping parsed from its output. *)
Theorem report_last_device
    (remote : string → string → string → string → option string)
    (pre post : list Device.t) (device : Device.t) (out : string) :
  Forall well_configured (pre ++ device :: post) →
  usable_output remote device = Some out →
  Forall (λ d, Device.device_name d = Device.device_name device →
               usable_output remote d = None) post →
  ∃ final_results standby_data device_results,
    report remote (pre ++ device :: post) = Ok final_results
    ∧ parse_show_standby_brief out = Ok standby_data
    ∧ validate_hsrp standby_data (Device.conditions device)
        (Device.device_name device)
      = Ok device_results
    ∧ final_results !! Device.device_name device = Some device_results.
Proof.
  intros Hall Hout Hpost.
  assert (well_configured device) as Hconf.
  { apply Forall_app in Hall as [_ Hall]. by inversion Hall. }
  destruct (device_report_eq remote device out Hconf Hout)
    as (standby_data & device_results & Hparse & Hvalidate & Hreport).
  eexists _, standby_data, device_results.
  split; [by apply report_eq|]. split; [done|]. split; [done|].
  rewrite foldl_app. simpl. rewrite foldl_add_device_other by done.
  unfold add_device. rewrite Hreport. apply lookup_insert_eq.
Qed.

Lemma report_last_device_witness :
  (Forall well_configured
     ([] ++ Device.Make "CPE1" "a" "u" "p" expected_conditions_cpe1
         :: [Device.Make "CPE1" "b" "u" "p" expected_conditions_cpe1])
   ∧ usable_output (λ host _ _ _, if decide (host = "a") then Some example_line else None)
       (Device.Make "CPE1" "a" "u" "p" expected_conditions_cpe1)
     = Some example_line
   ∧ Forall (λ d, Device.device_name d = "CPE1" →
                  usable_output
                    (λ host _ _ _, if decide (host = "a") then Some example_line else None)
                    d = None)
       [Device.Make "CPE1" "b" "u" "p" expected_conditions_cpe1])
  ∧ ∃ final_results standby_data device_results,
      report (λ host _ _ _, if decide (host = "a") then Some example_line else None)
        ([] ++ Device.Make "CPE1" "a" "u" "p" expected_conditions_cpe1
            :: [Device.Make "CPE1" "b" "u" "p" expected_conditions_cpe1])
      = Ok final_results
      ∧ parse_show_standby_brief example_line = Ok standby_data
      ∧ validate_hsrp standby_data expected_conditions_cpe1 "CPE1" = Ok device_results
      ∧ final_results !! "CPE1" = Some device_results.
Proof.
  assert (Forall well_configured
            ([] ++ Device.Make "CPE1" "a" "u" "p" expected_conditions_cpe1
                :: [Device.Make "CPE1" "b" "u" "p" expected_conditions_cpe1])) as Hall.
  { repeat constructor; eexists; reflexivity. }
  assert (Forall (λ d, Device.device_name d = "CPE1" →
                       usable_output
                         (λ host _ _ _,
                            if decide (host = "a") then Some example_line else None)
                         d = None)
            [Device.Make "CPE1" "b" "u" "p" expected_conditions_cpe1]) as Hpost.
  { repeat constructor. }
  split; [split; [exact Hall|split; [reflexivity|exact Hpost]]|].
  apply (report_last_device
           (λ host _ _ _, if decide (host = "a") then Some example_line else None)
           [] [Device.Make "CPE1" "b" "u" "p" expected_conditions_cpe1]
           (Device.Make "CPE1" "a" "u" "p" expected_conditions_cpe1) example_line);
    [exact Hall|reflexivity|exact Hpost].
Defined.

(** ** [main] with the devices it names *)

(** X14.  With the two devices and the expectations written in [main], the
    loop raises nothing, whatever the network does.  The report names no
    device but "CPE1" and "CPE2"; a device whose command failed or printed
    only whitespace is not in it; for any other output the device has
    exactly two records, "grp1" with the active verdict on group 1 alone
    and "grp2" with the standby verdict on group 2 alone. *)
Theorem main_report (remote : string → string → string → string → option string) :
  ∃ final_results,
    main remote = Ok final_results
    ∧ (∀ name, is_Some (final_results !! name) → name = "CPE1" ∨ name = "CPE2")
    ∧ ∀ device,
        device ∈ ssh_details →
        match usable_output remote device with
        | Some out =>
            ∃ standby_data,
              parse_show_standby_brief out = Ok standby_data
              ∧ final_results !! Device.device_name device
                = Some
                    {[ "grp1" :=
                         {[ "Active" :=
                              if decide (default "" (standby_data !! "1") = "active")
                              then "pass"
                              else "Failed : " +:+ Device.device_name device
                                   +:+ " No longer Active" ]};
                       "grp2" :=
                         {[ "Standby" :=
                              if decide (default "" (standby_data !! "2") = "standby")
                              then "pass"
                              else "Failed : " +:+ Device.device_name device
                                   +:+ " No longer Standby" ]} ]}
        | None => final_results !! Device.device_name device = None
        end.
Proof.
  assert (Forall well_configured ssh_details) as Hall.
  { repeat constructor; eexists; reflexivity. }
  eexists. split; [by apply report_eq|]. split.
  - intros name H. apply foldl_add_device_keys in H as [[? H]|(d & Hd & <- & _)].
    { by rewrite lookup_empty in H. }
    unfold ssh_details in Hd.
    apply elem_of_cons in Hd as [->|Hd]; [by left|].
    apply list_elem_of_singleton in Hd as ->. by right.
  - intros device Hd. unfold ssh_details in *. simpl.
    unfold add_device, device_report.
    apply elem_of_cons in Hd as [->|Hd];
      [|apply list_elem_of_singleton in Hd as ->].
    + destruct (usable_output remote (Device.Make "CPE1" _ _ _ _)) as [out1|] eqn:H1;
        destruct (usable_output remote (Device.Make "CPE2" _ _ _ _)) as [out2|] eqn:H2;
        simpl;
        first
          [ by rewrite ?lookup_insert_ne by done
          | eexists; split; [apply parse_show_standby_brief_eq|];
            rewrite ?lookup_insert_ne by done; rewrite lookup_insert_eq;
            reflexivity ].
    + destruct (usable_output remote (Device.Make "CPE1" _ _ _ _)) as [out1|] eqn:H1;
        destruct (usable_output remote (Device.Make "CPE2" _ _ _ _)) as [out2|] eqn:H2;
        simpl;
        first
          [ by rewrite ?lookup_insert_ne by done
          | eexists; split; [apply parse_show_standby_brief_eq|];
            rewrite ?lookup_insert_ne by done; rewrite lookup_insert_eq;
            reflexivity ].
Qed.

(** ** A pass has a line behind it *)

(** X15.  From the text to the verdict: a record passes the active
    expectation only if the text has a line that the pattern matches, whose
    second token is the group of the record and whose fourth token reads
    "active" when put in lower case; likewise for the standby expectation
    and "standby".  A text without such a line never gives a pass. *)
Theorem pass_has_line (output : string)
    (expected_conditions : list (gmap string string)) (device_name : string) :
  Forall has_group expected_conditions →
  ∃ standby_data results,
    parse_show_standby_brief output = Ok standby_data
    ∧ validate_hsrp standby_data expected_conditions device_name = Ok results
    ∧ ∀ g verdict field state,
        results !! ("grp" +:+ g) = Some verdict →
        (field = "Active" ∧ state = "active")
        ∨ (field = "Standby" ∧ state = "standby") →
        verdict !! field = Some "pass" →
        ∃ line t4,
          line ∈ PyStr.splitlines output
          ∧ contributes line
          ∧ PyStr.split line !! 1 = Some g
          ∧ PyStr.split line !! 3 = Some t4
          ∧ PyStr.lower t4 = state.
Proof.
  intros Hall. eexists _, _.
  split; [apply parse_show_standby_brief_eq|].
  split; [by apply validate_hsrp_eq|].
  intros g verdict field state Hv Hfield Hpass.
  set (standby_data := foldl add_entry ∅ (PyStr.splitlines output)) in *.
  pose proof (foldl_sound standby_data device_name expected_conditions ∅
                (sound_empty _ _)) as Hsound.
  destruct (Hsound _ _ Hv) as (g' & Hkey & Hfields).
  apply (key_inj g g') in Hkey as <-.
  assert (standby_data !! g = Some state) as Hstate.
  { destruct (Hfields _ _ Hpass) as [[-> Hx]|[-> Hx]];
      destruct Hfield as [[? ->]|[? ->]]; try done; symmetry in Hx.
    - apply active_verdict_pass in Hx. by apply get_exactly in Hx.
    - apply standby_verdict_pass in Hx. by apply get_exactly in Hx. }
  apply foldl_add_entry_sound in Hstate as [Hempty|(line & Hin & Hline)].
  { by rewrite lookup_empty in Hempty. }
  apply line_entry_tokens in Hline as (Hc & Hg & t4 & Ht4 & Hst).
  by exists line, t4.
Qed.

Lemma pass_has_line_witness :
  Forall has_group [expect_active "1" "Active"]
  ∧ ∃ standby_data results,
      parse_show_standby_brief example_output = Ok standby_data
      ∧ validate_hsrp standby_data [expect_active "1" "Active"] "CPE1" = Ok results
      ∧ ∀ g verdict field state,
          results !! ("grp" +:+ g) = Some verdict →
          (field = "Active" ∧ state = "active")
          ∨ (field = "Standby" ∧ state = "standby") →
          verdict !! field = Some "pass" →
          ∃ line t4,
            line ∈ PyStr.splitlines example_output
            ∧ contributes line
            ∧ PyStr.split line !! 1 = Some g
            ∧ PyStr.split line !! 3 = Some t4
            ∧ PyStr.lower t4 = state.
Proof.
  assert (Forall has_group [expect_active "1" "Active"]) as Hall.
  { repeat constructor; eexists; reflexivity. }
  split; [exact Hall|].
  exact (pass_has_line example_output _ "CPE1" Hall).
Defined.
